(** * Energy Stats: the accounting cycle of [EnergyStatsCoordinator]

    A shallow embedding of [custom_components/energy_stats/coordinator.py]
    (with the key table of [const.py]) and the properties of its update
    cycle: the energy integrator [_update_energy], the energy-mix
    apportioner [_add_mix_energy], the daily and the session reset, and
    the failure behaviour of [_async_update_data].

    Conventions of the embedding.
    - Python [float]s are exact rationals ([Qc]): the embedding covers the
      runs whose readings are finite numbers (a state that [float()] reads
      as nan or as an infinity has no counterpart here), and the rounding
      of the single floating-point operations is not modelled. [round(x, 3)]
      is the nearest number with 3 decimal places; at an exact tie of the
      rational, where the code rounds the binary float, the last digit may
      differ, and the properties below use the nearness only.
      [True] and [False] read from a sensor are the numbers 1 and 0, as
      they are in every operation the cycle applies to them.
    - A [str] is the string of the bytes of its UTF-8 encoding.
    - A [dict] with string keys is a [gmap string _]; [d.get(k)] is
      [d !! k] and [d.get(k, v)] is [get d k v].
    - A [datetime] is its number of microseconds since the epoch.
    - The coordinator object is a record; a method is a function from the
      record to the record, and [_async_update_data], which can raise, is
      written in a state-and-exception monad that keeps the attributes
      assigned before the [raise]. *)

From Stdlib Require Import QArith Qcanon Qround Lqa Ascii String.
From stdpp Require Import base numbers gmap strings list fin_maps.

Local Open Scope Qc_scope.

(** ** Numbers *)

(** [max(a, b)] of Python: the first argument unless the second is greater. *)
Definition pymax (a b : Qc) : Qc := if decide (a < b) then b else a.

(** Rounding to the nearest integer, ties to the even one. *)
Definition round_half_even (x : Qc) : Z :=
  let f := Qfloor x in
  let r := x - Qc_of_Z f in
  if decide (r < 1 / 2) then f
  else if decide (1 / 2 < r) then (f + 1)%Z
  else if Z.even f then f else (f + 1)%Z.

(** [round(x, ndigits)] for a non-negative number of digits. *)
Definition round (x : Qc) (ndigits : nat) : Qc :=
  let scale := Qc_of_Z (10 ^ Z.of_nat ndigits) in
  Qc_of_Z (round_half_even (x * scale)) / scale.

(** [int(x)]: truncation towards zero. *)
Definition int (x : Qc) : Z := Z.quot (Qnum x) (Zpos (Qden x)).

(** [timedelta.total_seconds()] of a difference of two datetimes. *)
Definition total_seconds (microseconds : Z) : Qc :=
  Qc_of_Z microseconds / Qc_of_Z 1000000.

(** [d.get(k, v)]. *)
Definition get {A : Type} (d : gmap string A) (k : string) (v : A) : A :=
  default v (d !! k).

(** Truth value of a number. *)
Definition truthy (x : Qc) : bool := bool_decide (x ≠ 0).

(** ** const.py *)

Definition SENSOR_KEYS : list string :=
  [ "grid_power"; "grid_in_energy"; "grid_out_energy"; "battery_power";
    "battery_energy"; "pv_power"; "pv_energy"; "car_charging_power";
    "car_charging_limit_power"; "car_charging_energy"; "car_connected";
    "car_soc" ].

(** ** The coordinator and its environment *)

(** What [Store.async_save] writes and [Store.async_load] returns. *)
Record Snapshot : Type := {
  snap_energy_sums : gmap string Qc;
  snap_pv_sums : gmap string Qc;
  snap_grid_sums : gmap string Qc;
  snap_energy_baselines : gmap string Qc;
  snap_last_reset : Z;
  snap_car_connected_was : bool
}.

(** The attributes of [EnergyStatsCoordinator]. [_store] holds the content
    of the durable store ([None]: nothing saved yet); [_car_connected_was]
    is kept as the truth value of what the code stores. *)
Record EnergyStatsCoordinator : Type := {
  sensors : gmap string string;
  _store : option Snapshot;
  _last_update : Z;
  _energy_sums : gmap string Qc;
  _last_reset : Z;
  _energy_baselines : gmap string Qc;
  _pv_sums : gmap string Qc;
  _grid_sums : gmap string Qc;
  _car_connected_was : bool;
  _calculated_keys : list string
}.

(** A state of the Home Assistant state machine: [st.state] and
    [st.attributes.get("unit_of_measurement")]. *)
Record State : Type := {
  state : option string;
  unit_of_measurement : option string
}.

(** What one run of the cycle reads from outside the coordinator: the clock,
    [hass.states], today's reset instant in UTC (computed by the time-zone
    library from the local date and [daily_reset]), and whether the save at
    the end succeeds. *)
Record Env : Type := {
  now : Z;
  states : gmap string State;
  reset_time_utc : Z;
  save_ok : bool
}.

(** Attribute assignments. *)
Definition set_store (v : option Snapshot) (self : EnergyStatsCoordinator) :=
  {| sensors := sensors self; _store := v; _last_update := _last_update self;
     _energy_sums := _energy_sums self; _last_reset := _last_reset self;
     _energy_baselines := _energy_baselines self; _pv_sums := _pv_sums self;
     _grid_sums := _grid_sums self;
     _car_connected_was := _car_connected_was self;
     _calculated_keys := _calculated_keys self |}.

Definition set_last_update (v : Z) (self : EnergyStatsCoordinator) :=
  {| sensors := sensors self; _store := _store self; _last_update := v;
     _energy_sums := _energy_sums self; _last_reset := _last_reset self;
     _energy_baselines := _energy_baselines self; _pv_sums := _pv_sums self;
     _grid_sums := _grid_sums self;
     _car_connected_was := _car_connected_was self;
     _calculated_keys := _calculated_keys self |}.

Definition set_energy_sums (v : gmap string Qc) (self : EnergyStatsCoordinator) :=
  {| sensors := sensors self; _store := _store self;
     _last_update := _last_update self;
     _energy_sums := v; _last_reset := _last_reset self;
     _energy_baselines := _energy_baselines self; _pv_sums := _pv_sums self;
     _grid_sums := _grid_sums self;
     _car_connected_was := _car_connected_was self;
     _calculated_keys := _calculated_keys self |}.

Definition set_last_reset (v : Z) (self : EnergyStatsCoordinator) :=
  {| sensors := sensors self; _store := _store self;
     _last_update := _last_update self;
     _energy_sums := _energy_sums self; _last_reset := v;
     _energy_baselines := _energy_baselines self; _pv_sums := _pv_sums self;
     _grid_sums := _grid_sums self;
     _car_connected_was := _car_connected_was self;
     _calculated_keys := _calculated_keys self |}.

Definition set_energy_baselines (v : gmap string Qc) (self : EnergyStatsCoordinator) :=
  {| sensors := sensors self; _store := _store self;
     _last_update := _last_update self;
     _energy_sums := _energy_sums self; _last_reset := _last_reset self;
     _energy_baselines := v; _pv_sums := _pv_sums self;
     _grid_sums := _grid_sums self;
     _car_connected_was := _car_connected_was self;
     _calculated_keys := _calculated_keys self |}.

Definition set_pv_sums (v : gmap string Qc) (self : EnergyStatsCoordinator) :=
  {| sensors := sensors self; _store := _store self;
     _last_update := _last_update self;
     _energy_sums := _energy_sums self; _last_reset := _last_reset self;
     _energy_baselines := _energy_baselines self; _pv_sums := v;
     _grid_sums := _grid_sums self;
     _car_connected_was := _car_connected_was self;
     _calculated_keys := _calculated_keys self |}.

Definition set_grid_sums (v : gmap string Qc) (self : EnergyStatsCoordinator) :=
  {| sensors := sensors self; _store := _store self;
     _last_update := _last_update self;
     _energy_sums := _energy_sums self; _last_reset := _last_reset self;
     _energy_baselines := _energy_baselines self; _pv_sums := _pv_sums self;
     _grid_sums := v;
     _car_connected_was := _car_connected_was self;
     _calculated_keys := _calculated_keys self |}.

Definition set_car_connected_was (v : bool) (self : EnergyStatsCoordinator) :=
  {| sensors := sensors self; _store := _store self;
     _last_update := _last_update self;
     _energy_sums := _energy_sums self; _last_reset := _last_reset self;
     _energy_baselines := _energy_baselines self; _pv_sums := _pv_sums self;
     _grid_sums := _grid_sums self;
     _car_connected_was := v;
     _calculated_keys := _calculated_keys self |}.

Definition set_calculated_keys (v : list string) (self : EnergyStatsCoordinator) :=
  {| sensors := sensors self; _store := _store self;
     _last_update := _last_update self;
     _energy_sums := _energy_sums self; _last_reset := _last_reset self;
     _energy_baselines := _energy_baselines self; _pv_sums := _pv_sums self;
     _grid_sums := _grid_sums self;
     _car_connected_was := _car_connected_was self;
     _calculated_keys := v |}.

(** ** The energy integrator *)

(** [_update_energy(key, energy_sensor_value, power_sensor_value, elapsed_h)]:
    the daily total of [key], from the cumulative energy sensor when it has
    a value, else by integrating a positive power over the elapsed time. *)
Definition _update_energy (key : string)
    (energy_sensor_value power_sensor_value : option Qc) (elapsed_h : Qc)
    (self : EnergyStatsCoordinator) : EnergyStatsCoordinator :=
  match energy_sensor_value with
  | Some energy =>
      let '(self, baseline) :=
        match _energy_baselines self !! key with
        | None =>
            (set_energy_baselines (<[key := energy]> (_energy_baselines self)) self,
             energy)
        | Some baseline => (self, baseline)
        end in
      let self := set_calculated_keys (_calculated_keys self ++ [key]) self in
      set_energy_sums (<[key := pymax 0 (energy - baseline)]> (_energy_sums self)) self
  | None =>
      match power_sensor_value with
      | Some power =>
          if decide (0 < elapsed_h ∧ 0 < power) then
            let prev := get (_energy_sums self) key 0 in
            let self :=
              set_energy_sums
                (<[key := round (prev + power * elapsed_h) 3]> (_energy_sums self))
                self in
            set_calculated_keys (_calculated_keys self ++ [key]) self
          else self
      | None => self
      end
  end.

(** ** The energy-mix apportioner *)

(** [_add_mix_energy(key, pv_power, grid_power, battery_power,
    battery_pv_factor, elapsed_h, usage_factor)], every parameter written
    out: a caller that leaves one out passes the default of the signature
    ([None], [None], [0.0], [None]). *)
Definition _add_mix_energy (key : string) (pv_power grid_power : option Qc)
    (battery_power battery_pv_factor : option Qc) (elapsed_h : Qc)
    (usage_factor : option Qc)
    (self : EnergyStatsCoordinator) : EnergyStatsCoordinator :=
  let pv_power := default 0 pv_power in
  match grid_power with
  | None => self
  | Some grid_power =>
      let '(pv_power, grid_power) :=
        match battery_power with
        | Some battery_power =>
            if decide (0 < battery_power) then
              match battery_pv_factor with
              | Some battery_pv_factor =>
                  (pv_power + battery_pv_factor * battery_power,
                   grid_power + (1 - battery_pv_factor) * battery_power)
              | None => (pv_power, grid_power + battery_power)
              end
            else (pv_power, grid_power + battery_power)
        | None => (pv_power, grid_power)
        end in
      let pv_part := pymax 0 pv_power * elapsed_h in
      let grid_part := pymax 0 grid_power * elapsed_h in
      let '(pv_part, grid_part) :=
        match usage_factor with
        | Some usage_factor => (pv_part * usage_factor, grid_part * usage_factor)
        | None => (pv_part, grid_part)
        end in
      let self :=
        set_pv_sums (<[key := get (_pv_sums self) key 0 + pv_part]> (_pv_sums self))
          self in
      let self :=
        set_grid_sums
          (<[key := get (_grid_sums self) key 0 + grid_part]> (_grid_sums self))
          self in
      let self :=
        if decide (get (_pv_sums self) key 0 < 0)
        then set_pv_sums (<[key := 0]> (_pv_sums self)) self else self in
      if decide (get (_grid_sums self) key 0 < 0)
      then set_grid_sums (<[key := 0]> (_grid_sums self)) self else self
  end.

(** [_mix_ratio(key)] of [_async_update_data]. *)
Definition _mix_ratio (key : string) (self : EnergyStatsCoordinator) : Qc :=
  let pv_sum := get (_pv_sums self) key 0 in
  let grid_sum := get (_grid_sums self) key 0 in
  let total := pv_sum + grid_sum in
  if decide (0 < total) then pv_sum / total else 0.

(** ** Exceptions and the cycle monad *)

Inductive Exception : Type :=
  | UpdateFailed (errmsg : string)
  | ZeroDivisionError.

Inductive outcome (A : Type) : Type :=
  | Return (a : A)
  | Raise (e : Exception).
Arguments Return {A} a.
Arguments Raise {A} e.

(** A computation on the coordinator: the attributes it leaves behind, and
    the value it returns or the exception it raises. *)
Definition M (A : Type) : Type :=
  EnergyStatsCoordinator → EnergyStatsCoordinator * outcome A.

Definition ret {A : Type} (a : A) : M A := λ self, (self, Return a).

Definition bind {A B : Type} (m : M A) (k : A → M B) : M B :=
  λ self,
    match m self with
    | (self', Return a) => k a self'
    | (self', Raise e) => (self', Raise e)
    end.

Definition raise {A : Type} (e : Exception) : M A := λ self, (self, Raise e).

Definition get_self : M EnergyStatsCoordinator := λ self, (self, Return self).

Definition modify (f : EnergyStatsCoordinator → EnergyStatsCoordinator) : M unit :=
  λ self, (f self, Return tt).

Notation "x <- m ;; k" := (bind m (λ x, k))
  (at level 100, m at next level, right associativity).
Notation "m ;; k" := (bind m (λ _, k))
  (at level 100, right associativity).

(** [a / b] of Python. *)
Definition truediv (a b : Qc) : M Qc :=
  if decide (b = 0) then raise ZeroDivisionError else ret (a / b).

(** ** Sample acquisition *)

Definition lower_ascii (c : ascii) : ascii :=
  let n := nat_of_ascii c in
  if (65 <=? n)%nat && (n <=? 90)%nat then ascii_of_nat (n + 32) else c.

(** [str.lower()], as far as a comparison with ASCII words sees it: the
    ASCII capitals become small letters, and so does the KELVIN SIGN
    (U+212A, in UTF-8 the bytes 226 132 170), the one other character whose
    lower case is an ASCII letter; every other character keeps bytes above
    127. *)
Fixpoint lower (s : string) : string :=
  match s with
  | EmptyString => EmptyString
  | String "226" (String "132" (String "170" s)) => String "k" (lower s)
  | String c s => String (lower_ascii c) (lower s)
  end.

Section Cycle.

(** [float(s)] of Python on a string; [None] is its [ValueError]. *)
Variable float : string → option Qc.

(** [get_value(entity_id)] of [_async_update_data]. *)
Definition get_value (env : Env) (entity_id : string) : option Qc :=
  if decide (entity_id = "") then None
  else
    match states env !! entity_id with
    | None => None
    | Some st =>
        match state st with
        | None => None
        | Some s =>
            if decide (s ∈ ["unknown"; "unavailable"]) then None
            else
              match float s with
              | Some val =>
                  match unit_of_measurement st with
                  | Some unit =>
                      if decide (unit = "") then Some val
                      else
                        let unit := lower unit in
                        let val :=
                          if decide (unit ∈ ["kw"; "kwatt"; "kilowatt"])
                          then val * Qc_of_Z 1000 else val in
                        let val :=
                          if decide (unit ∈ ["kwh"; "kwhours"; "kilowatt-hour";
                                             "kilowatt hour"])
                          then val * Qc_of_Z 1000 else val in
                        Some val
                  | None => Some val
                  end
              | None =>
                  if decide (s = "on") then Some 1
                  else if decide (s = "off") then Some 0
                  else None
              end
        end
    end.

(** The loop over [SENSOR_KEYS] that fills [raw_vals]; a key without an
    entity has the value [None], here no entry. *)
Fixpoint get_raw_values (env : Env) (sensors : gmap string string)
    (keys : list string) (raw_vals : gmap string Qc)
    : outcome (gmap string Qc) :=
  match keys with
  | [] => Return raw_vals
  | key :: keys =>
      match sensors !! key with
      | Some entity_id =>
          match get_value env entity_id with
          | None => Raise (UpdateFailed ("Entity " +:+ entity_id +:+ " is not ready!"))
          | Some value => get_raw_values env sensors keys (<[key := value]> raw_vals)
          end
      | None => get_raw_values env sensors keys (delete key raw_vals)
      end
  end.

(** ** The update cycle *)

(** [# Initialize]: with no total in memory, take the stored snapshot, or
    start from nothing. The clock read for [_last_reset] there is taken to
    be the [now] that the run reads next. *)
Definition initialize (env : Env) (self : EnergyStatsCoordinator)
    : EnergyStatsCoordinator :=
  if decide (_energy_sums self = ∅) then
    match _store self with
    | Some stored =>
        {| sensors := sensors self; _store := _store self;
           _last_update := _last_update self;
           _energy_sums := snap_energy_sums stored;
           _last_reset := snap_last_reset stored;
           _energy_baselines := snap_energy_baselines stored;
           _pv_sums := snap_pv_sums stored;
           _grid_sums := snap_grid_sums stored;
           _car_connected_was := snap_car_connected_was stored;
           _calculated_keys := _calculated_keys self |}
    | None =>
        {| sensors := sensors self; _store := _store self;
           _last_update := _last_update self;
           _energy_sums := ∅;
           _last_reset := now env;
           _energy_baselines := ∅;
           _pv_sums := ∅;
           _grid_sums := ∅;
           _car_connected_was := false;
           _calculated_keys := _calculated_keys self |}
    end
  else self.

(** [result[key] = raw_vals[key]] when the value is not [None]. *)
Definition copy_value (key : string) (raw_vals result : gmap string Qc)
    : gmap string Qc :=
  match raw_vals !! key with
  | Some v => <[key := v]> result
  | None => result
  end.

(** [# Momentary powers] and [# Other momentary values]. *)
Definition momentary_values (raw_vals : gmap string Qc) : gmap string Qc :=
  let result := ∅ in
  let result := copy_value "grid_power" raw_vals result in
  let result := copy_value "car_charging_power" raw_vals result in
  let result := copy_value "car_charging_limit_power" raw_vals result in
  let result := copy_value "pv_power" raw_vals result in
  let result := copy_value "battery_power" raw_vals result in
  let result :=
    <["home_power" :=
        get result "grid_power" 0 + get result "pv_power" 0
        + get result "battery_power" 0 - get result "car_charging_power" 0]>
      result in
  let result :=
    match raw_vals !! "car_connected" with
    | Some v => <["car_connected" := Qc_of_Z (int v)]> result
    | None => result
    end in
  copy_value "car_soc" raw_vals result.

(** The assignment of the battery content and [# Energies]. *)
Definition update_energies (raw_vals result : gmap string Qc) (elapsed_h : Qc)
    (self : EnergyStatsCoordinator) : EnergyStatsCoordinator :=
  let self :=
    match raw_vals !! "battery_energy" with
    | Some v => set_energy_sums (<["battery_energy" := v]> (_energy_sums self)) self
    | None => self
    end in
  let self :=
    _update_energy "grid_in_energy_daily" (raw_vals !! "grid_in_energy")
      (raw_vals !! "grid_power") elapsed_h self in
  let self :=
    _update_energy "grid_out_energy_daily" (raw_vals !! "grid_out_energy")
      (Qcopp <$> raw_vals !! "grid_power") elapsed_h self in
  let self :=
    _update_energy "pv_energy_daily" (raw_vals !! "pv_energy")
      (raw_vals !! "pv_power") elapsed_h self in
  let self :=
    _update_energy "car_charging_energy" (raw_vals !! "car_charging_energy")
      (raw_vals !! "car_charging_power") elapsed_h self in
  _update_energy "home_energy_daily" None (Some (get result "home_power" 0))
    elapsed_h self.

(** The usage factor of the battery's charge branch. *)
Definition battery_usage_factor (result : gmap string Qc) : M Qc :=
  truediv (- get result "battery_power" 0)
    (get result "pv_power" 0 + get result "grid_power" 0).

(** The usage factor of the home consumption. *)
Definition home_usage_factor (result : gmap string Qc) : M Qc :=
  truediv (get result "home_power" 0)
    (get result "home_power" 0 + get result "car_charging_power" 0).

(** The usage factor of the car charging. *)
Definition car_usage_factor (result : gmap string Qc) : M Qc :=
  truediv (get result "car_charging_power" 0)
    (get result "home_power" 0 + get result "car_charging_power" 0).

(** The battery part of [# Energy Mixes]. Both calls pass [elapsed_h] as
    the fourth positional argument, which [_add_mix_energy] receives as
    [battery_power]; its [battery_pv_factor] and [elapsed_h] keep their
    defaults [None] and [0.0]. *)
Definition battery_mix (raw_vals result : gmap string Qc) (elapsed_h : Qc)
    : M (gmap string Qc) :=
  match raw_vals !! "battery_power" with
  | Some battery_power =>
      (if decide (0 < battery_power) then
         modify
           (_add_mix_energy "battery_energy"
              (Some (- get result "battery_power" 0
                     * get result "battery_energy_mix" 0))
              (Some (- get result "battery_power" 0
                     * (1 - get result "battery_energy_mix" 0)))
              (Some elapsed_h) None 0 None)
       else
         usage_factor <- battery_usage_factor result ;;
         modify
           (_add_mix_energy "battery_energy"
              (Some (get result "pv_power" 0))
              (Some (get result "grid_power" 0))
              (Some elapsed_h) None 0 (Some usage_factor))) ;;
      self <- get_self ;;
      modify (set_calculated_keys (_calculated_keys self ++ ["battery_energy_mix"])) ;;
      ret (<["battery_energy_mix" := _mix_ratio "battery_energy" self]> result)
  | None => ret result
  end.

(** The home part of [# Energy Mixes]. *)
Definition home_mix (result : gmap string Qc) (elapsed_h : Qc)
    : M (gmap string Qc) :=
  usage_factor <- home_usage_factor result ;;
  modify
    (_add_mix_energy "home_energy_daily"
       (Some (get result "pv_power" 0))
       (Some (get result "grid_power" 0))
       (Some (get result "battery_power" 0))
       (Some (get result "battery_energy_mix" 0))
       elapsed_h (Some usage_factor)) ;;
  self <- get_self ;;
  modify (set_calculated_keys (_calculated_keys self ++ ["home_energy_mix_daily"])) ;;
  ret (<["home_energy_mix_daily" := _mix_ratio "home_energy_daily" self]> result).

(** The car part of [# Energy Mixes]. *)
Definition car_mix (raw_vals result : gmap string Qc) (elapsed_h : Qc)
    : M (gmap string Qc) :=
  match raw_vals !! "car_charging_power" with
  | Some _ =>
      usage_factor <- car_usage_factor result ;;
      modify
        (_add_mix_energy "car_charging_energy"
           (Some (get result "pv_power" 0))
           (Some (get result "grid_power" 0))
           (Some (get result "battery_power" 0))
           (Some (get result "battery_energy_mix" 0))
           elapsed_h (Some usage_factor)) ;;
      self <- get_self ;;
      modify
        (set_calculated_keys (_calculated_keys self ++ ["car_charging_energy_mix"])) ;;
      ret (<["car_charging_energy_mix" := _mix_ratio "car_charging_energy" self]>
             result)
  | None => ret result
  end.

(** The condition of [# Daily reset]. *)
Definition daily_reset_due (env : Env) (self : EnergyStatsCoordinator) : bool :=
  bool_decide (reset_time_utc env ≤ now env ∧ _last_reset self < reset_time_utc env)%Z.

(** The body of [# Daily reset]: every dict is replaced by a new one with
    a single key. *)
Definition reset_daily_values (env : Env) (self : EnergyStatsCoordinator)
    : EnergyStatsCoordinator :=
  let self :=
    set_energy_sums
      {[ "car_charging_energy" := get (_energy_sums self) "car_charging_energy" 0 ]}
      self in
  let self :=
    set_energy_baselines
      {[ "car_charging_energy" :=
           get (_energy_baselines self) "car_charging_energy" 0 ]}
      self in
  let self :=
    set_pv_sums {[ "battery_energy" := get (_pv_sums self) "battery_energy" 0 ]}
      self in
  let self :=
    set_grid_sums {[ "battery_energy" := get (_grid_sums self) "battery_energy" 0 ]}
      self in
  set_last_reset (now env) self.

Definition daily_reset (env : Env) (self : EnergyStatsCoordinator)
    : EnergyStatsCoordinator :=
  if daily_reset_due env self then reset_daily_values env self else self.

(** [# Car charging reset]. *)
Definition car_charging_reset (result : gmap string Qc)
    (self : EnergyStatsCoordinator) : EnergyStatsCoordinator :=
  let self :=
    if negb (_car_connected_was self) && truthy (get result "car_connected" 0) then
      let self :=
        set_energy_sums (<["car_charging_energy" := 0]> (_energy_sums self)) self in
      set_energy_baselines
        (<["car_charging_energy" := get result "car_charging_energy" 0]>
           (_energy_baselines self))
        self
    else self in
  set_car_connected_was (truthy (get result "car_connected" 0)) self.

(** The dict given to [Store.async_save]. *)
Definition snapshot (self : EnergyStatsCoordinator) : Snapshot :=
  {| snap_energy_sums := _energy_sums self;
     snap_pv_sums := _pv_sums self;
     snap_grid_sums := _grid_sums self;
     snap_energy_baselines := _energy_baselines self;
     snap_last_reset := _last_reset self;
     snap_car_connected_was := _car_connected_was self |}.

(** [# Finalize]: a save that fails is logged and changes nothing. *)
Definition save (env : Env) (self : EnergyStatsCoordinator)
    : EnergyStatsCoordinator :=
  if save_ok env then set_store (Some (snapshot self)) self else self.

(** What [_async_update_data] returns: the [result] dict, its entry
    ["calculated_keys"] apart. *)
Record Result : Type := {
  values : gmap string Qc;
  calculated_keys : list string
}.

(** The cycle up to [# Daily reset]: the readings, the totals and the
    mixes. *)
Definition accounting (env : Env) : M (gmap string Qc) :=
  modify (initialize env) ;;
  self <- get_self ;;
  let elapsed_h := total_seconds (now env - _last_update self) / Qc_of_Z 3600 in
  modify (set_last_update (now env)) ;;
  modify (set_calculated_keys []) ;;
  raw_vals <- (λ self, (self, get_raw_values env (sensors self) SENSOR_KEYS ∅)) ;;
  let result := momentary_values raw_vals in
  modify (update_energies raw_vals result elapsed_h) ;;
  self <- get_self ;;
  let result := _energy_sums self ∪ result in
  result <- battery_mix raw_vals result elapsed_h ;;
  result <- home_mix result elapsed_h ;;
  car_mix raw_vals result elapsed_h.

(** [_async_update_data()]. *)
Definition _async_update_data (env : Env) : M Result :=
  result <- accounting env ;;
  modify (daily_reset env) ;;
  modify (car_charging_reset result) ;;
  self <- get_self ;;
  modify (save env) ;;
  ret {| values := result; calculated_keys := _calculated_keys self |}.

(** Whether a run of the cycle executes the body of [# Daily reset]. *)
Definition performs_daily_reset (env : Env) (self : EnergyStatsCoordinator)
    : bool :=
  match accounting env self with
  | (self', Return _) => daily_reset_due env self'
  | (_, Raise _) => false
  end.

(** The coordinator after one run, and after a sequence of runs. *)
Definition cycle (self : EnergyStatsCoordinator) (env : Env)
    : EnergyStatsCoordinator :=
  fst (_async_update_data env self).

Definition run (envs : list Env) (self : EnergyStatsCoordinator)
    : EnergyStatsCoordinator :=
  foldl cycle self envs.


End Cycle.

(** [__init__]: a coordinator created at [created] for the entities of
    [sensors], with nothing stored. *)
Definition new_coordinator (sensors : gmap string string) (created : Z)
    : EnergyStatsCoordinator :=
  {| sensors := sensors; _store := None; _last_update := created;
     _energy_sums := ∅; _last_reset := created; _energy_baselines := ∅;
     _pv_sums := ∅; _grid_sums := ∅; _car_connected_was := false;
     _calculated_keys := [] |}.

(** * Predicates and inputs of the properties *)

#[global] Instance Snapshot_eq_dec : EqDecision Snapshot.
Proof. solve_decision. Defined.

#[global] Instance EnergyStatsCoordinator_eq_dec :
  EqDecision EnergyStatsCoordinator.
Proof. solve_decision. Defined.

#[global] Instance Exception_eq_dec : EqDecision Exception.
Proof. solve_decision. Defined.

#[global] Instance outcome_eq_dec {A : Type} `{EqDecision A} :
  EqDecision (outcome A).
Proof. solve_decision. Defined.

#[global] Instance Result_eq_dec : EqDecision Result.
Proof. solve_decision. Defined.

(** A property of the coordinator that a computation keeps, whether it
    returns or raises. *)
Definition preserves (P : EnergyStatsCoordinator → Prop) {A : Type} (m : M A)
    : Prop :=
  ∀ self, P self → P (m self).1.

(** Every total is at least 0; with [all = false] the total of
    [battery_energy], a copy of the sensor's reading, is left out. *)
Definition totals_nonneg (all : bool) (sums : gmap string Qc) : Prop :=
  ∀ key v, sums !! key = Some v → (all = false ∧ key = "battery_energy") ∨ 0 ≤ v.

(** Every mix sum is at least 0. *)
Definition mix_nonneg (sums : gmap string Qc) : Prop :=
  ∀ key v, sums !! key = Some v → 0 ≤ v.

(** Non-negative totals and mix sums, in memory and in the store. *)
Definition nonneg_state (all : bool) (self : EnergyStatsCoordinator) : Prop :=
  totals_nonneg all (_energy_sums self)
  ∧ mix_nonneg (_pv_sums self)
  ∧ mix_nonneg (_grid_sums self)
  ∧ ∀ stored, _store self = Some stored →
      totals_nonneg all (snap_energy_sums stored)
      ∧ mix_nonneg (snap_pv_sums stored)
      ∧ mix_nonneg (snap_grid_sums stored).

(** The sensor configured for [battery_energy], if any, reads no negative
    value. *)
Definition battery_reading_nonneg (float : string → option Qc)
    (sensors : gmap string string) (env : Env) : Prop :=
  ∀ entity_id v,
    sensors !! "battery_energy" = Some entity_id →
    get_value float env entity_id = Some v → 0 ≤ v.

(** Whether a run returned. *)
Definition returns {A : Type} (r : EnergyStatsCoordinator * outcome A) : bool :=
  match r.2 with
  | Return _ => true
  | Raise _ => false
  end.


(** ** Inputs of the scenarios *)

Fixpoint digits (s : string) (acc : Z) : option Z :=
  match s with
  | EmptyString => Some acc
  | String c s =>
      let n := nat_of_ascii c in
      if (48 <=? n)%nat && (n <=? 57)%nat
      then digits s (10 * acc + Z.of_nat (n - 48))%Z
      else None
  end.

(** A [float] for the scenarios: it reads the decimal integers, with an
    optional sign, and refuses every other string. *)
Definition float_of_integer (s : string) : option Qc :=
  match s with
  | EmptyString => None
  | String "-" EmptyString => None
  | String "-" s' => (λ z, Qc_of_Z (- z)) <$> digits s' 0
  | _ => Qc_of_Z <$> digits s 0
  end.

(** A sensor state without a unit. *)
Definition reading (s : string) : State :=
  {| state := Some s; unit_of_measurement := None |}.

Definition one_hour : Z := 3600000000.

(** Scenario D: a site with a grid and a battery sensor, whose battery
    holds 8 Wh of solar and 2 Wh of grid energy (a mix of 0.8); one hour
    after the last run the battery discharges 500 W and nothing else
    flows. *)
Definition site_D : EnergyStatsCoordinator :=
  {| sensors := {[ "grid_power" := "sensor.grid_power";
                   "battery_power" := "sensor.battery_power" ]};
     _store := None; _last_update := 0;
     _energy_sums := {[ "home_energy_daily" := Qc_of_Z 10 ]};
     _last_reset := 0; _energy_baselines := ∅;
     _pv_sums := {[ "battery_energy" := Qc_of_Z 8 ]};
     _grid_sums := {[ "battery_energy" := Qc_of_Z 2 ]};
     _car_connected_was := false; _calculated_keys := [] |}.

Definition env_D : Env :=
  {| now := one_hour;
     states := {[ "sensor.grid_power" := reading "0";
                  "sensor.battery_power" := reading "500" ]};
     reset_time_utc := 20 * one_hour; save_ok := true |}.

(** A new site whose battery content sensor reads -1 Wh, one hour after
    its creation. *)
Definition site_negative_battery : EnergyStatsCoordinator :=
  new_coordinator
    {[ "grid_power" := "sensor.grid_power";
       "battery_energy" := "sensor.battery_energy" ]} 0.

Definition env_negative_battery : Env :=
  {| now := one_hour;
     states := {[ "sensor.grid_power" := reading "100";
                  "sensor.battery_energy" := reading "-1" ]};
     reset_time_utc := 20 * one_hour; save_ok := true |}.

(** The site of scenario D at the instant [t], with the reset instant
    [reset]. *)
Definition env_at (t reset : Z) : Env :=
  {| now := t;
     states := {[ "sensor.grid_power" := reading "0";
                  "sensor.battery_power" := reading "500" ]};
     reset_time_utc := reset; save_ok := true |}.

(** The same while the battery sensor is unavailable. *)
Definition env_down_at (t reset : Z) : Env :=
  {| now := t;
     states := {[ "sensor.grid_power" := reading "0";
                  "sensor.battery_power" := reading "unavailable" ]};
     reset_time_utc := reset; save_ok := true |}.

Definition env_unavailable : Env := env_down_at one_hour (20 * one_hour).


(** A site with a car: the charging energy sensor had the baseline 5000 Wh
    and the session total 700 Wh, and the car was not connected. *)
Definition site_car : EnergyStatsCoordinator :=
  {| sensors := {[ "grid_power" := "sensor.grid_power";
                   "car_charging_energy" := "sensor.car_energy";
                   "car_connected" := "binary_sensor.car_plug" ]};
     _store := None; _last_update := 0;
     _energy_sums := {[ "car_charging_energy" := Qc_of_Z 700 ]};
     _last_reset := 0;
     _energy_baselines := {[ "car_charging_energy" := Qc_of_Z 5000 ]};
     _pv_sums := ∅; _grid_sums := ∅;
     _car_connected_was := false; _calculated_keys := [] |}.

(** The car is plugged in while the charging energy sensor reads 5750 Wh. *)
Definition env_plug_in (t : Z) : Env :=
  {| now := t;
     states := {[ "sensor.grid_power" := reading "100";
                  "sensor.car_energy" := reading "5750";
                  "binary_sensor.car_plug" := reading "on" ]};
     reset_time_utc := 20 * one_hour; save_ok := true |}.

(** A site in the evening: a daily total with its baseline, a charging
    session without a baseline, and mix sums of the home and the battery. *)
Definition site_evening : EnergyStatsCoordinator :=
  {| sensors := {[ "grid_power" := "sensor.grid_power" ]};
     _store := None; _last_update := 0;
     _energy_sums := {[ "grid_in_energy_daily" := Qc_of_Z 750;
                        "car_charging_energy" := Qc_of_Z 300 ]};
     _last_reset := 0;
     _energy_baselines := {[ "grid_in_energy_daily" := Qc_of_Z 5000 ]};
     _pv_sums := {[ "home_energy_daily" := Qc_of_Z 10;
                    "battery_energy" := Qc_of_Z 8 ]};
     _grid_sums := {[ "home_energy_daily" := Qc_of_Z 5;
                      "battery_energy" := Qc_of_Z 2 ]};
     _car_connected_was := false; _calculated_keys := [] |}.

(** A new site with a grid sensor alone, which reads 0 W. *)
Definition site_grid_only : EnergyStatsCoordinator :=
  new_coordinator {[ "grid_power" := "sensor.grid_power" ]} 0.

Definition env_idle : Env :=
  {| now := one_hour;
     states := {[ "sensor.grid_power" := reading "0" ]};
     reset_time_utc := 20 * one_hour; save_ok := true |}.

(** A new site that feeds its whole solar production of 1000 W into the
    grid while the battery charges with 500 W. *)
Definition site_export : EnergyStatsCoordinator :=
  new_coordinator
    {[ "grid_power" := "sensor.grid_power";
       "pv_power" := "sensor.pv_power";
       "battery_power" := "sensor.battery_power" ]} 0.

Definition env_export : Env :=
  {| now := one_hour;
     states := {[ "sensor.grid_power" := reading "-1000";
                  "sensor.pv_power" := reading "1000";
                  "sensor.battery_power" := reading "-500" ]};
     reset_time_utc := 20 * one_hour; save_ok := true |}.

(** Scenario A: the grid sensor alone, reading 1000 W one hour after the
    creation of the coordinator. *)
Definition env_A : Env :=
  {| now := one_hour;
     states := {[ "sensor.grid_power" := reading "1000" ]};
     reset_time_utc := 20 * one_hour; save_ok := true |}.

(** Scenario B: a new site with a grid power and a cumulative grid energy
    sensor, which reads 5000 Wh at the first run and 5750 Wh at the next. *)
Definition site_B : EnergyStatsCoordinator :=
  new_coordinator
    {[ "grid_power" := "sensor.grid_power";
       "grid_in_energy" := "sensor.grid_in_energy" ]} 0.

Definition env_B (t : Z) (energy : string) : Env :=
  {| now := t;
     states := {[ "sensor.grid_power" := reading "100";
                  "sensor.grid_in_energy" := reading energy ]};
     reset_time_utc := 20 * one_hour; save_ok := true |}.

(** The grid sensor alone, reading 100 W, at the instant [t] with the
    reset instant [reset]. *)
Definition env_grid_at (t reset : Z) : Env :=
  {| now := t;
     states := {[ "sensor.grid_power" := reading "100" ]};
     reset_time_utc := reset; save_ok := true |}.

(** The names under which the cycle stores a total. *)
Definition ACCOUNT_KEYS : list string :=
  [ "battery_energy"; "grid_in_energy_daily"; "grid_out_energy_daily";
    "pv_energy_daily"; "car_charging_energy"; "home_energy_daily" ].

(** The totals, in memory and in the store, are stored under those names. *)
Definition account_keys_only (self : EnergyStatsCoordinator) : Prop :=
  (∀ key v, _energy_sums self !! key = Some v → key ∈ ACCOUNT_KEYS)
  ∧ ∀ stored, _store self = Some stored →
      ∀ key v, snap_energy_sums stored !! key = Some v → key ∈ ACCOUNT_KEYS.

(** The spellings of kilowatt and kilowatt-hour that [get_value] knows,
    in lower case. *)
Definition KILO_UNITS : list string :=
  [ "kw"; "kwatt"; "kilowatt"; "kwh"; "kwhours"; "kilowatt-hour";
    "kilowatt hour" ].

(** Whether a unit of measurement is one of them, in any letter case. *)
Definition is_kilo_unit (unit : option string) : bool :=
  match unit with
  | Some unit => bool_decide (lower unit ∈ KILO_UNITS)
  | None => false
  end.

(** The names of the readings that [result] publishes as they are. *)
Definition PUBLISHED_READINGS : list string :=
  [ "grid_power"; "car_charging_power"; "car_charging_limit_power";
    "pv_power"; "battery_power"; "car_soc" ].

(** A solar power sensor that reports 3 kW. *)
Definition env_kilowatt : Env :=
  {| now := one_hour;
     states := {[ "sensor.pv_power" :=
                    {| state := Some "3"; unit_of_measurement := Some "kW" |} ]};
     reset_time_utc := 20 * one_hour; save_ok := true |}.

(** The same surroundings with another fate of the save. *)
Definition set_save_ok (v : bool) (env : Env) : Env :=
  {| now := now env; states := states env;
     reset_time_utc := reset_time_utc env; save_ok := v |}.

(** A new coordinator object for the same config entry, created at
    [created]: [__init__] with the store as the old object left it. *)
Definition restart (created : Z) (self : EnergyStatsCoordinator)
    : EnergyStatsCoordinator :=
  set_store (_store self) (new_coordinator (sensors self) created).

(** The battery account holds nothing, in memory and in the store. *)
Definition battery_mix_empty (self : EnergyStatsCoordinator) : Prop :=
  get (_pv_sums self) "battery_energy" 0 = 0
  ∧ get (_grid_sums self) "battery_energy" 0 = 0
  ∧ ∀ stored, _store self = Some stored →
      get (snap_pv_sums stored) "battery_energy" 0 = 0
      ∧ get (snap_grid_sums stored) "battery_energy" 0 = 0.

(** The part of [accounting] after the loop over [SENSOR_KEYS], given what
    the loop returned or raised and the elapsed hours; [accounting] is this
    computation run on the coordinator as [# Initialize] and the two
    assignments before the loop leave it (lemma [accounting_unfold]). *)
Definition accounting_with (read : outcome (gmap string Qc)) (elapsed_h : Qc)
    : M (gmap string Qc) :=
  raw_vals <- (λ self, (self, read)) ;;
  let result := momentary_values raw_vals in
  modify (update_energies raw_vals result elapsed_h) ;;
  self <- get_self ;;
  let result := _energy_sums self ∪ result in
  result <- battery_mix raw_vals result elapsed_h ;;
  result <- home_mix result elapsed_h ;;
  car_mix raw_vals result elapsed_h.

(** A number with at most three decimal places. *)
Definition three_decimals (x : Qc) : Prop :=
  ∃ n : Z, x = Qc_of_Z n / Qc_of_Z 1000.

(** The account [key] is integrated from a power: its cumulative sensor
    [sensor] is not configured, and its total has at most three decimal
    places, in memory and in the store. *)
Definition integrated (sensor key : string) (self : EnergyStatsCoordinator)
    : Prop :=
  sensors self !! sensor = None
  ∧ three_decimals (get (_energy_sums self) key 0)
  ∧ ∀ stored, _store self = Some stored →
      three_decimals (get (snap_energy_sums stored) key 0).

(** [# Energy Mixes]: the battery, the home and the car part in turn. *)
Definition energy_mixes (raw_vals result : gmap string Qc) (elapsed_h : Qc)
    : M (gmap string Qc) :=
  result <- battery_mix raw_vals result elapsed_h ;;
  result <- home_mix result elapsed_h ;;
  car_mix raw_vals result elapsed_h.

Definition one_day : Z := 24 * one_hour.

(** The reset instant of [# Daily reset], as the code computes it in every
    run: the time of day [daily_reset] on the local date of the clock,
    taken to UTC, for a local time zone at the fixed offset [utc_offset]
    from UTC. All are microseconds. *)
Definition reset_time_on_local_date (utc_offset daily_reset clock : Z) : Z :=
  (clock + utc_offset) `div` one_day * one_day + daily_reset - utc_offset.



(** A power sensor whose unit is written with the KELVIN SIGN (U+212A)
    for its K. *)
Definition env_kelvin_sign : Env :=
  {| now := one_hour;
     states :=
       {[ "sensor.pv_power" :=
            {| state := Some "2";
               unit_of_measurement :=
                 Some (String "226" (String "132" (String "170" "W"))) |} ]};
     reset_time_utc := 20 * one_hour; save_ok := true |}.

(** [sys.float_info.max], the largest finite [float]. *)
Definition float_info_max : Qc := Qc_of_Z ((2 ^ 53 - 1) * 2 ^ 971).

(** A number in the range of the finite [float]s. *)
Definition finite (x : Qc) : Prop := - float_info_max ≤ x ∧ x ≤ float_info_max.

(** * Properties *)

(** Closes a decidable goal on concrete data by evaluation. *)
Ltac by_compute :=
  cbv zeta; apply (bool_decide_unpack _); vm_compute; exact I.

(** ** Numbers *)

Lemma pymax_ge_l (a b : Qc) : a ≤ pymax a b.
Proof.
  unfold pymax. case_decide; [by apply Qclt_le_weak | apply Qcle_refl].
Qed.

Lemma pymax_ge_r (a b : Qc) : b ≤ pymax a b.
Proof.
  unfold pymax. case_decide; [apply Qcle_refl | by apply Qcnot_lt_le].
Qed.

Lemma pymax_cases (a b : Qc) : pymax a b = a ∨ pymax a b = b.
Proof. unfold pymax. case_decide; auto. Qed.

Lemma pymax_0_pos (x : Qc) : 0 ≤ x → pymax 0 x = x.
Proof.
  intros Hx. unfold pymax. case_decide as Hlt; [done |].
  apply Qcle_antisym; [done | by apply Qcnot_lt_le].
Qed.

Lemma pymax_0_neg (x : Qc) : x ≤ 0 → pymax 0 x = 0.
Proof.
  intros Hx. unfold pymax. case_decide as Hlt; [| done].
  by apply Qcle_not_lt in Hx.
Qed.

Lemma Qc_of_Z_nonneg (z : Z) : (0 ≤ z)%Z → 0 ≤ Qc_of_Z z.
Proof. intros Hz. apply Z2Qc_inj_le in Hz. by rewrite Z2Qc_inj_0 in Hz. Qed.

Lemma Qc_of_Z_pos (z : Z) : (0 < z)%Z → 0 < Qc_of_Z z.
Proof. intros Hz. apply Z2Qc_inj_lt in Hz. by rewrite Z2Qc_inj_0 in Hz. Qed.

Lemma Qcdiv_nonneg_pos (x y : Qc) : 0 ≤ x → 0 < y → 0 ≤ x / y.
Proof.
  intros Hx Hy. unfold Qcdiv.
  apply Qcmult_nonneg_nonneg; [done |]. by apply Qclt_le_weak, Qcinv_pos.
Qed.

Lemma Qfloor_nonneg (x : Qc) : 0 ≤ x → (0 ≤ Qfloor x)%Z.
Proof.
  intros Hx. change 0%Z with (Qfloor (inject_Z 0)).
  apply Qfloor_resp_le. exact Hx.
Qed.

Lemma round_half_even_nonneg (x : Qc) : 0 ≤ x → (0 ≤ round_half_even x)%Z.
Proof.
  intros Hx. pose proof (Qfloor_nonneg x Hx). unfold round_half_even.
  repeat case_decide; try destruct (Z.even _); lia.
Qed.

Lemma round_nonneg (x : Qc) (ndigits : nat) : 0 ≤ x → 0 ≤ round x ndigits.
Proof.
  intros Hx. unfold round.
  assert (0 < Qc_of_Z (10 ^ Z.of_nat ndigits)) as Hs.
  { apply Qc_of_Z_pos. apply Z.pow_pos_nonneg; lia. }
  apply Qcdiv_nonneg_pos; [| done].
  apply Qc_of_Z_nonneg, round_half_even_nonneg.
  apply Qcmult_nonneg_nonneg; [done | by apply Qclt_le_weak].
Qed.

(** Goals on the order of [Qc] as goals on [Q]. *)
Ltac qc_to_q :=
  unfold Qcle, Qclt, Qcminus, Qcdiv, Qcinv, Qcplus, Qcopp, Qcmult, Q2Qc,
    Qc_of_Z in *;
  cbn [this] in *;
  repeat match goal with
  | H : context [Qred ?q] |- _ => rewrite (Qred_correct q) in H
  | |- context [Qred ?q] => rewrite (Qred_correct q)
  end;
  change (inject_Z 1) with 1%Q in *;
  change (1 * / (1 + 1))%Q with (1 # 2)%Q in *.

(** [round_half_even] is within one half of its argument. *)
Lemma round_half_even_near (x : Qc) :
  x - 1 / 2 ≤ Qc_of_Z (round_half_even x)
  ∧ Qc_of_Z (round_half_even x) ≤ x + 1 / 2.
Proof.
  pose proof (Qfloor_le x) as Hlo. pose proof (Qlt_floor x) as Hhi.
  rewrite inject_Z_plus in Hhi.
  unfold round_half_even.
  repeat case_decide; try destruct (Z.even (Qfloor x));
    rewrite ?Z2Qc_inj_add;
    repeat match goal with
    | H : ¬ _ < _ |- _ => apply Qcnot_lt_le in H
    end;
    qc_to_q; split; lra.
Qed.

(** [round x ndigits] has [ndigits] decimal places and is within half a
    unit of the last place of [x]. *)
Lemma round_near (x : Qc) (ndigits : nat) :
  let scale := Qc_of_Z (10 ^ Z.of_nat ndigits) in
  (∃ z : Z, round x ndigits = Qc_of_Z z / scale)
  ∧ x - 1 / (2 * scale) ≤ round x ndigits
  ∧ round x ndigits ≤ x + 1 / (2 * scale).
Proof.
  intros scale.
  assert (0 < scale) as Hs.
  { apply Qc_of_Z_pos. apply Z.pow_pos_nonneg; lia. }
  assert (scale ≠ 0) as Hs0
    by (intros H0; rewrite H0 in Hs; by apply Qclt_not_eq in Hs).
  assert (0 ≤ / scale) as Hinv by by apply Qclt_le_weak, Qcinv_pos.
  destruct (round_half_even_near (x * scale)) as [Hlo Hhi].
  unfold round. fold scale. split; [by eexists |]. split.
  - replace (x - 1 / (2 * scale)) with ((x * scale - 1 / 2) / scale)
      by (by field).
    by apply Qcmult_le_mono_nonneg_r.
  - replace (x + 1 / (2 * scale)) with ((x * scale + 1 / 2) / scale)
      by (by field).
    by apply Qcmult_le_mono_nonneg_r.
Qed.

(** [round] commutes with adding an integer. *)
Lemma Qfloor_add_Z (x : Qc) (m : Z) : Qfloor (x + Qc_of_Z m)%Qc = (Qfloor x + m)%Z.
Proof.
  transitivity (Qfloor (x + inject_Z m)%Q).
  { apply Qfloor_comp. unfold Qcplus, Q2Qc, Qc_of_Z. cbn [this]. apply Qred_correct. }
  destruct x as [[n d] Hc]. unfold Qfloor, Qplus, inject_Z. simpl.
  rewrite Pos.mul_1_r, Z.mul_1_r. apply Z.div_add. lia.
Qed.

Lemma round_half_even_add_even (x : Qc) (m : Z) :
  Z.even m = true → round_half_even (x + Qc_of_Z m) = (round_half_even x + m)%Z.
Proof.
  intros Hm. unfold round_half_even. rewrite Qfloor_add_Z.
  replace (x + Qc_of_Z m - Qc_of_Z (Qfloor x + m)) with (x - Qc_of_Z (Qfloor x))
    by (rewrite Z2Qc_inj_add; ring).
  rewrite Z.even_add, Hm.
  repeat case_decide; try destruct (Z.even (Qfloor x)); simpl; lia.
Qed.

Lemma round_add_Z (x : Qc) (n : Z) : round (x + Qc_of_Z n) 3 = round x 3 + Qc_of_Z n.
Proof.
  unfold round. change (10 ^ Z.of_nat 3)%Z with 1000%Z.
  replace ((x + Qc_of_Z n) * Qc_of_Z 1000)
    with (x * Qc_of_Z 1000 + Qc_of_Z (n * 1000)) by (rewrite Z2Qc_inj_mul; ring).
  rewrite round_half_even_add_even by (rewrite Z.even_mul; apply orb_true_r).
  rewrite Z2Qc_inj_add, Z2Qc_inj_mul.
  assert (Qc_of_Z 1000 ≠ 0) as Hs.
  { rewrite <-Z2Qc_inj_0. intros H. by apply Z2Qc_inj in H. }
  field. done.
Qed.

(** ** The energy integrator *)

(** C6. An account updated with a cumulative energy reading: on the first
    observation (no baseline stored) the reading becomes the baseline and
    the total is 0; on a later one the baseline stays and the total is
    max(0, reading - baseline), that is the difference reading - baseline
    when the reading is at least the baseline, and 0 when it is below. A
    reading of 5000 Wh at the capture of the baseline and of 5750 Wh at the
    next update gives the total 750 Wh. *)
Theorem update_energy_cumulative_reading :
  (∀ key energy power elapsed_h self,
     _energy_baselines self !! key = None →
     let self' := _update_energy key (Some energy) power elapsed_h self in
     _energy_baselines self' !! key = Some energy
     ∧ _energy_sums self' !! key = Some 0)
  ∧ (∀ key energy power elapsed_h self baseline,
       _energy_baselines self !! key = Some baseline →
       let self' := _update_energy key (Some energy) power elapsed_h self in
       _energy_baselines self' !! key = Some baseline
       ∧ (baseline ≤ energy →
          _energy_sums self' !! key = Some (energy - baseline))
       ∧ (energy < baseline → _energy_sums self' !! key = Some 0))
  ∧ (∀ key power1 power2 elapsed_h1 elapsed_h2 self,
       _energy_baselines self !! key = None →
       let self1 :=
         _update_energy key (Some (Qc_of_Z 5000)) power1 elapsed_h1 self in
       let self2 :=
         _update_energy key (Some (Qc_of_Z 5750)) power2 elapsed_h2 self1 in
       _energy_sums self2 !! key = Some (Qc_of_Z 750)).
Proof.
  assert (∀ key energy power elapsed_h self,
            _energy_baselines self !! key = None →
            let self' := _update_energy key (Some energy) power elapsed_h self in
            _energy_baselines self' !! key = Some energy
            ∧ _energy_sums self' !! key = Some 0) as Hfirst.
  { intros key energy power elapsed_h self Hnone. unfold _update_energy.
    rewrite Hnone. simpl. rewrite !lookup_insert_eq. split; [done |].
    f_equal. replace (energy - energy) with 0 by ring. by apply pymax_0_neg. }
  assert (∀ key energy power elapsed_h self baseline,
            _energy_baselines self !! key = Some baseline →
            let self' := _update_energy key (Some energy) power elapsed_h self in
            _energy_baselines self' !! key = Some baseline
            ∧ (baseline ≤ energy →
               _energy_sums self' !! key = Some (energy - baseline))
            ∧ (energy < baseline → _energy_sums self' !! key = Some 0))
    as Hlater.
  { intros key energy power elapsed_h self baseline Hsome.
    unfold _update_energy. rewrite Hsome. simpl.
    rewrite lookup_insert_eq. split; [done |]. split.
    - intros Hle. f_equal. apply pymax_0_pos. qc_to_q. lra.
    - intros Hlt. f_equal. apply pymax_0_neg. qc_to_q. lra. }
  split; [exact Hfirst | split; [exact Hlater |]].
  intros key power1 power2 elapsed_h1 elapsed_h2 self Hnone self1 self2.
  destruct (Hfirst key (Qc_of_Z 5000) power1 elapsed_h1 self Hnone) as [Hb _].
  destruct (Hlater key (Qc_of_Z 5750) power2 elapsed_h2 self1 _ Hb)
    as (_ & Hs & _).
  fold self2 in Hs. rewrite Hs by by_compute. f_equal.
  by_compute.
Qed.

(** Scenarios A and B in the update cycle: 1000 W for one hour without a
    cumulative sensor give [grid_in_energy_daily] = 1000 Wh; a cumulative
    sensor that reads 5000 Wh and then 5750 Wh gives 750 Wh, whatever the
    power. *)
Example scenarios_A_and_B :
  get (_energy_sums site_grid_only) "grid_in_energy_daily" 0 = 0
  ∧ _energy_sums (cycle float_of_integer site_grid_only env_A)
      !! "grid_in_energy_daily" = Some (Qc_of_Z 1000)
  ∧ _energy_sums
      (run float_of_integer [env_B one_hour "5000"; env_B (2 * one_hour) "5750"]
         site_B)
      !! "grid_in_energy_daily" = Some (Qc_of_Z 750).
Proof. by_compute. Qed.

(** ** Dictionaries *)

Lemma get_insert_eq {A : Type} (d : gmap string A) (k : string) (v w : A) :
  get (<[k := v]> d) k w = v.
Proof. unfold get. by rewrite lookup_insert_eq. Qed.

Lemma get_insert_ne {A : Type} (d : gmap string A) (k k' : string) (v w : A) :
  k ≠ k' → get (<[k := v]> d) k' w = get d k' w.
Proof. intros Hne. unfold get. by rewrite lookup_insert_ne. Qed.

(** ** The energy-mix apportioner *)

(** C1 on the code: scenario D (battery power 500 W, battery mix 0.8, one
    hour elapsed, no other flow). The cycle returns, and the pv sum and the
    grid sum of the battery account are what they were, 8 Wh and 2 Wh, not
    400 Wh and 100 Wh more; a new coordinator for the same sensors, whose
    battery account is empty, ends the same cycle with both sums at 0. *)
Theorem discharge_leaves_battery_mix :
  let self' := cycle float_of_integer site_D env_D in
  let new := new_coordinator (sensors site_D) 0 in
  get_value float_of_integer env_D "sensor.battery_power" = Some (Qc_of_Z 500)
  ∧ _mix_ratio "battery_energy" site_D = Qc_of_Z 4 / Qc_of_Z 5
  ∧ total_seconds (now env_D - _last_update site_D) / Qc_of_Z 3600 = 1
  ∧ returns (_async_update_data float_of_integer env_D site_D) = true
  ∧ _pv_sums self' !! "battery_energy" = Some (Qc_of_Z 8)
  ∧ _grid_sums self' !! "battery_energy" = Some (Qc_of_Z 2)
  ∧ get (_pv_sums self') "battery_energy" 0
    ≠ get (_pv_sums site_D) "battery_energy" 0 + Qc_of_Z 400
  ∧ get (_grid_sums self') "battery_energy" 0
    ≠ get (_grid_sums site_D) "battery_energy" 0 + Qc_of_Z 100
  ∧ returns (_async_update_data float_of_integer env_D new) = true
  ∧ get (_pv_sums (cycle float_of_integer new env_D)) "battery_energy" 0 = 0
  ∧ get (_grid_sums (cycle float_of_integer new env_D)) "battery_energy" 0 = 0.
Proof. by_compute. Qed.

(** ** What the two methods leave alone *)

Ltac unfold_methods :=
  unfold _update_energy, _add_mix_energy, set_store, set_last_update,
    set_energy_sums, set_last_reset, set_energy_baselines, set_pv_sums,
    set_grid_sums, set_car_connected_was, set_calculated_keys in *.

Ltac split_cases := repeat (case_match || case_decide); simplify_eq/=.

Lemma update_energy_frame key e p h self :
  let self' := _update_energy key e p h self in
  sensors self' = sensors self ∧ _store self' = _store self
  ∧ _last_update self' = _last_update self
  ∧ _last_reset self' = _last_reset self
  ∧ _pv_sums self' = _pv_sums self ∧ _grid_sums self' = _grid_sums self
  ∧ _car_connected_was self' = _car_connected_was self.
Proof. unfold_methods. split_cases; done. Qed.

(** [_add_mix_energy] with a grid power writes one value, at least 0, to
    the pv sum and one to the grid sum of its key, and nothing else. *)
Lemma add_mix_energy_shape key pv grid bp f h uf self :
  ∃ a b : Qc,
    0 ≤ a ∧ 0 ≤ b
    ∧ _add_mix_energy key pv (Some grid) bp f h uf self
      = set_grid_sums (<[key := b]> (_grid_sums self))
          (set_pv_sums (<[key := a]> (_pv_sums self)) self).
Proof.
  unfold _add_mix_energy.
  repeat match goal with
  | |- context [match ?p with pair _ _ => _ end] => destruct p as [? ?]
  end.
  cbn [_pv_sums _grid_sums set_pv_sums set_grid_sums].
  rewrite !get_insert_eq.
  pose proof (Qcle_refl 0) as H0.
  destruct (decide (get (_pv_sums self) key 0 + q1 < 0)) as [Hp | Hp];
    cbn [_pv_sums _grid_sums set_pv_sums set_grid_sums];
    rewrite !get_insert_eq;
    destruct (decide (get (_grid_sums self) key 0 + q2 < 0)) as [Hg | Hg];
    try apply Qcnot_lt_le in Hp; try apply Qcnot_lt_le in Hg.
  - exists 0, 0. repeat split; [done.. |].
    unfold set_grid_sums, set_pv_sums. cbn. by rewrite !insert_insert_eq.
  - exists 0, (get (_grid_sums self) key 0 + q2). repeat split; [done.. |].
    unfold set_grid_sums, set_pv_sums. cbn. by rewrite !insert_insert_eq.
  - exists (get (_pv_sums self) key 0 + q1), 0. repeat split; [done.. |].
    unfold set_grid_sums, set_pv_sums. cbn. by rewrite !insert_insert_eq.
  - by exists (get (_pv_sums self) key 0 + q1), (get (_grid_sums self) key 0 + q2).
Qed.

(** ** Properties kept by the cycle *)

Section Preservation.

Variable float : string → option Qc.
Variable P : EnergyStatsCoordinator → Prop.
Variable Q : Env → Prop.

Lemma preserves_ret {A : Type} (a : A) : preserves P (ret a).
Proof. by intros self. Qed.

Lemma preserves_raise {A : Type} (e : Exception) : preserves P (@raise A e).
Proof. by intros self. Qed.

Lemma preserves_modify f :
  (∀ self, P self → P (f self)) → preserves P (modify f).
Proof. intros Hf self. apply Hf. Qed.

Lemma preserves_truediv a b : preserves P (truediv a b).
Proof.
  unfold truediv. case_decide; [apply preserves_raise | apply preserves_ret].
Qed.

Lemma preserves_bind {A B : Type} (m : M A) (k : A → M B) :
  preserves P m → (∀ a, preserves P (k a)) → preserves P (bind m k).
Proof.
  intros Hm Hk self HP. unfold bind. specialize (Hm self HP).
  destruct (m self) as [self' [a | e]]; simpl in *; [by apply Hk | done].
Qed.

Lemma preserves_get_self {A : Type} (k : EnergyStatsCoordinator → M A) :
  (∀ self, P self → preserves P (k self)) → preserves P (bind get_self k).
Proof. intros Hk self HP. unfold bind, get_self. by apply Hk. Qed.

Hypothesis P_initialize : ∀ env self, P self → P (initialize env self).
Hypothesis P_set_last_update : ∀ v self, P self → P (set_last_update v self).
Hypothesis P_set_calculated_keys :
  ∀ v self, P self → P (set_calculated_keys v self).
Hypothesis P_update_energies :
  ∀ env raw_vals result elapsed_h self,
    Q env →
    get_raw_values float env (sensors self) SENSOR_KEYS ∅ = Return raw_vals →
    P self → P (update_energies raw_vals result elapsed_h self).
Hypothesis P_add_mix_energy :
  ∀ key pv grid bp f h uf self,
    P self → P (_add_mix_energy key pv grid bp f h uf self).

Lemma preserves_battery_mix raw_vals result elapsed_h :
  preserves P (battery_mix raw_vals result elapsed_h).
Proof.
  unfold battery_mix, battery_usage_factor. case_match; [| apply preserves_ret].
  apply preserves_bind.
  - case_decide.
    + by apply preserves_modify, P_add_mix_energy.
    + apply preserves_bind; [apply preserves_truediv |].
      intros uf. by apply preserves_modify, P_add_mix_energy.
  - intros _. apply preserves_get_self. intros self _.
    apply preserves_bind; [by apply preserves_modify, P_set_calculated_keys |].
    intros _. apply preserves_ret.
Qed.

Lemma preserves_home_mix result elapsed_h :
  preserves P (home_mix result elapsed_h).
Proof.
  unfold home_mix, home_usage_factor.
  apply preserves_bind; [apply preserves_truediv |]. intros uf.
  apply preserves_bind; [by apply preserves_modify, P_add_mix_energy |].
  intros _. apply preserves_get_self. intros self _.
  apply preserves_bind; [by apply preserves_modify, P_set_calculated_keys |].
  intros _. apply preserves_ret.
Qed.

Lemma preserves_car_mix raw_vals result elapsed_h :
  preserves P (car_mix raw_vals result elapsed_h).
Proof.
  unfold car_mix, car_usage_factor. case_match; [| apply preserves_ret].
  apply preserves_bind; [apply preserves_truediv |]. intros uf.
  apply preserves_bind; [by apply preserves_modify, P_add_mix_energy |].
  intros _. apply preserves_get_self. intros self _.
  apply preserves_bind; [by apply preserves_modify, P_set_calculated_keys |].
  intros _. apply preserves_ret.
Qed.

Lemma preserves_accounting env : Q env → preserves P (accounting float env).
Proof.
  intros HQ. unfold accounting.
  apply preserves_bind; [by apply preserves_modify, P_initialize |]. intros _.
  apply preserves_get_self. intros self0 _.
  apply preserves_bind; [by apply preserves_modify, P_set_last_update |].
  intros _.
  apply preserves_bind; [by apply preserves_modify, P_set_calculated_keys |].
  intros _ self HP. unfold bind at 1.
  destruct (get_raw_values float env (sensors self) SENSOR_KEYS ∅)
    as [raw_vals | e] eqn:Hraw; [| done].
  unfold bind at 1, modify at 1.
  apply preserves_get_self; [| by eapply P_update_energies]. intros self1 _.
  apply preserves_bind; [apply preserves_battery_mix |]. intros result.
  apply preserves_bind; [apply preserves_home_mix |]. intros result'.
  apply preserves_car_mix.
Qed.

Hypothesis P_daily_reset : ∀ env self, P self → P (daily_reset env self).
Hypothesis P_car_charging_reset :
  ∀ result self, P self → P (car_charging_reset result self).
Hypothesis P_save : ∀ env self, P self → P (save env self).

Lemma preserves_async_update_data env :
  Q env → preserves P (_async_update_data float env).
Proof.
  intros HQ. unfold _async_update_data.
  apply preserves_bind; [by apply preserves_accounting |]. intros result.
  apply preserves_bind; [by apply preserves_modify, P_daily_reset |]. intros _.
  apply preserves_bind; [by apply preserves_modify, P_car_charging_reset |].
  intros _. apply preserves_get_self. intros self _.
  apply preserves_bind; [by apply preserves_modify, P_save |]. intros _.
  apply preserves_ret.
Qed.

Lemma preserves_run envs self :
  Forall Q envs → P self → P (run float envs self).
Proof.
  intros HQ. revert self. induction HQ as [| env envs HQenv _ IH]; [done |].
  intros self HP. simpl. apply IH. by apply preserves_async_update_data.
Qed.

End Preservation.

(** ** Non-negative totals and mix sums *)

Lemma get_raw_values_lookup float env sensors keys acc raw_vals key v :
  get_raw_values float env sensors keys acc = Return raw_vals →
  raw_vals !! key = Some v →
  acc !! key = Some v
  ∨ ∃ entity_id,
      sensors !! key = Some entity_id ∧ get_value float env entity_id = Some v.
Proof.
  revert acc. induction keys as [| k keys IH]; intros acc Hret Hlook.
  - simpl in Hret. simplify_eq. by left.
  - simpl in Hret. destruct (sensors !! k) as [entity_id |] eqn:Hs.
    + destruct (get_value float env entity_id) as [value |] eqn:Hv; [| done].
      destruct (IH _ Hret Hlook) as [Hacc | Hsens]; [| by right].
      destruct (decide (k = key)) as [-> | Hne].
      * rewrite lookup_insert_eq in Hacc. simplify_eq. right. eauto.
      * rewrite lookup_insert_ne in Hacc by done. by left.
    + destruct (IH _ Hret Hlook) as [Hacc | Hsens]; [| by right].
      destruct (decide (k = key)) as [-> | Hne].
      * by rewrite lookup_delete_eq in Hacc.
      * rewrite lookup_delete_ne in Hacc by done. by left.
Qed.

Lemma totals_nonneg_insert all sums key v :
  totals_nonneg all sums →
  (all = false ∧ key = "battery_energy") ∨ 0 ≤ v →
  totals_nonneg all (<[key := v]> sums).
Proof.
  intros Hsums Hv k w Hlook. destruct (decide (key = k)) as [-> | Hne].
  - rewrite lookup_insert_eq in Hlook. by simplify_eq.
  - rewrite lookup_insert_ne in Hlook by done. by eapply Hsums.
Qed.

Lemma totals_nonneg_get all sums key :
  totals_nonneg all sums → key ≠ "battery_energy" → 0 ≤ get sums key 0.
Proof.
  intros Hsums Hkey. unfold get. destruct (sums !! key) as [v |] eqn:Hlook.
  - destruct (Hsums _ _ Hlook) as [[_ ?] | ?]; done.
  - apply Qcle_refl.
Qed.

Lemma mix_nonneg_insert sums key v :
  mix_nonneg sums → 0 ≤ v → mix_nonneg (<[key := v]> sums).
Proof.
  intros Hsums Hv k w Hlook. destruct (decide (key = k)) as [-> | Hne].
  - rewrite lookup_insert_eq in Hlook. by simplify_eq.
  - rewrite lookup_insert_ne in Hlook by done. by eapply Hsums.
Qed.

Lemma mix_nonneg_get sums key : mix_nonneg sums → 0 ≤ get sums key 0.
Proof.
  intros Hsums. unfold get. destruct (sums !! key) as [v |] eqn:Hlook.
  - by eapply Hsums.
  - apply Qcle_refl.
Qed.

Lemma mix_nonneg_singleton key v : 0 ≤ v → mix_nonneg {[ key := v ]}.
Proof.
  intros Hv k w Hlook. apply lookup_singleton_Some in Hlook as [_ <-]. done.
Qed.

Ltac split_nonneg :=
  unfold nonneg_state;
  cbn [sensors _store _energy_sums _pv_sums _grid_sums set_store
       set_last_update set_energy_sums set_last_reset set_energy_baselines
       set_pv_sums set_grid_sums set_car_connected_was set_calculated_keys
       reset_daily_values snapshot snap_energy_sums snap_pv_sums
       snap_grid_sums];
  split; [| split; [| split]].

Lemma update_energy_nonneg all key e p h self :
  key ≠ "battery_energy" →
  nonneg_state all self → nonneg_state all (_update_energy key e p h self).
Proof.
  intros Hkey (Hsums & Hpv & Hgrid & Hstore).
  destruct (update_energy_frame key e p h self)
    as (_ & Hst & _ & _ & Hp & Hg & _).
  unfold nonneg_state. rewrite Hst, Hp, Hg.
  split; [| done].
  unfold _update_energy. destruct e as [energy |].
  - destruct (_energy_baselines self !! key);
      cbn [_energy_sums set_energy_sums set_calculated_keys set_energy_baselines];
      (apply totals_nonneg_insert; [done | right; apply pymax_ge_l]).
  - destruct p as [power |]; [| done].
    case_decide as Hpos; [| done]. destruct Hpos as [Hh Hp'].
    cbn [_energy_sums set_energy_sums set_calculated_keys].
    apply totals_nonneg_insert; [done | right]. apply round_nonneg.
    apply Qcplus_nonneg_nonneg; [by eapply totals_nonneg_get |].
    apply Qcmult_nonneg_nonneg; by apply Qclt_le_weak.
Qed.

Lemma add_mix_energy_nonneg all key pv grid bp f h uf self :
  nonneg_state all self →
  nonneg_state all (_add_mix_energy key pv grid bp f h uf self).
Proof.
  intros (Hsums & Hpv & Hgrid & Hstore). destruct grid as [grid |]; [| done].
  destruct (add_mix_energy_shape key pv grid bp f h uf self)
    as (a & b & Ha & Hb & ->).
  split_nonneg; [done | by apply mix_nonneg_insert.. | done].
Qed.

Section NonNegative.

Variable float : string → option Qc.
Variable all : bool.
Variable configured : gmap string string.

Let P (self : EnergyStatsCoordinator) : Prop :=
  sensors self = configured ∧ nonneg_state all self.

Let Q (env : Env) : Prop :=
  all = true → battery_reading_nonneg float configured env.

Lemma nonneg_initialize env self : P self → P (initialize env self).
Proof.
  intros [Hs (Hsums & Hpv & Hgrid & Hstore)]. unfold initialize.
  case_decide; [| done]. destruct (_store self) as [stored |] eqn:Hst.
  - destruct (Hstore stored eq_refl) as (? & ? & ?).
    split; [done |]. split_nonneg; done.
  - split; [done |]. split_nonneg; done.
Qed.

Lemma nonneg_update_energies env raw_vals result elapsed_h self :
  Q env →
  get_raw_values float env (sensors self) SENSOR_KEYS ∅ = Return raw_vals →
  P self → P (update_energies raw_vals result elapsed_h self).
Proof.
  intros HQ Hraw [Hs Hnn]. unfold update_energies.
  assert (∀ key e p h self', P self' → key ≠ "battery_energy" →
            P (_update_energy key e p h self')) as Hstep.
  { intros key e p h self' [Hs' Hnn'] Hkey. split.
    - by destruct (update_energy_frame key e p h self') as (-> & _).
    - by apply update_energy_nonneg. }
  repeat (apply Hstep; [| done]).
  destruct (raw_vals !! "battery_energy") as [v |] eqn:Hv; [| done].
  split; [done |]. destruct Hnn as (Hsums & Hpv & Hgrid & Hstore).
  split_nonneg; [| done..].
  apply totals_nonneg_insert; [done |]. destruct all eqn:Hall; [| by left].
  right.
  destruct (get_raw_values_lookup _ _ _ _ _ _ _ _ Hraw Hv)
    as [Hacc | (entity_id & Hsens & Hval)]; [done |].
  rewrite Hs in Hsens. by eapply (HQ eq_refl).
Qed.

Lemma nonneg_add_mix_energy key pv grid bp f h uf self :
  P self → P (_add_mix_energy key pv grid bp f h uf self).
Proof.
  intros [Hs Hnn]. split; [| by apply add_mix_energy_nonneg].
  destruct grid as [grid |]; [| done].
  by destruct (add_mix_energy_shape key pv grid bp f h uf self)
    as (a & b & _ & _ & ->).
Qed.

Lemma nonneg_daily_reset env self : P self → P (daily_reset env self).
Proof.
  intros [Hs (Hsums & Hpv & Hgrid & Hstore)]. unfold daily_reset.
  destruct (daily_reset_due env self); [| done].
  split; [done |]. unfold reset_daily_values. split_nonneg.
  - intros k v Hlook. apply lookup_singleton_Some in Hlook as [<- <-].
    right. by eapply totals_nonneg_get.
  - by apply mix_nonneg_singleton, mix_nonneg_get.
  - by apply mix_nonneg_singleton, mix_nonneg_get.
  - done.
Qed.

Lemma nonneg_car_charging_reset result self :
  P self → P (car_charging_reset result self).
Proof.
  intros [Hs (Hsums & Hpv & Hgrid & Hstore)]. unfold car_charging_reset.
  destruct (negb (_car_connected_was self) && truthy (get result "car_connected" 0));
    [| done].
  split; [done |]. split_nonneg; [| done..].
  apply totals_nonneg_insert; [done | right; apply Qcle_refl].
Qed.

Lemma nonneg_save env self : P self → P (save env self).
Proof.
  intros [Hs (Hsums & Hpv & Hgrid & Hstore)]. unfold save.
  destruct (save_ok env); [| done].
  split; [done |]. split_nonneg; [done.. |]. by intros ? [= <-].
Qed.

Lemma nonneg_run envs self :
  Forall Q envs → P self → P (run float envs self).
Proof.
  apply preserves_run.
  - apply nonneg_initialize.
  - by intros v self' HP.
  - by intros v self' HP.
  - apply nonneg_update_energies.
  - apply nonneg_add_mix_energy.
  - apply nonneg_daily_reset.
  - apply nonneg_car_charging_reset.
  - apply nonneg_save.
Qed.

End NonNegative.

Lemma nonneg_new_coordinator all configured created :
  nonneg_state all (new_coordinator configured created).
Proof. split_nonneg; done. Qed.

(** C8, as the code has it. After any sequence of runs from a new
    coordinator, every total other than [battery_energy] is at least 0, and
    no pv sum and no grid sum is below 0 (a sum that comes out below 0 is
    set to 0); the total of [battery_energy], which is stored as the sensor
    reads, is at least 0 when no reading of that sensor was negative. *)
Theorem totals_and_mix_sums_nonneg (float : string → option Qc)
    (configured : gmap string string) (created : Z) (envs : list Env) :
  let self := run float envs (new_coordinator configured created) in
  (∀ key v, _energy_sums self !! key = Some v → key ≠ "battery_energy" → 0 ≤ v)
  ∧ (∀ key v, _pv_sums self !! key = Some v → ¬ v < 0)
  ∧ (∀ key v, _grid_sums self !! key = Some v → ¬ v < 0)
  ∧ (Forall (battery_reading_nonneg float configured) envs →
     ∀ v, _energy_sums self !! "battery_energy" = Some v → 0 ≤ v).
Proof.
  intros self.
  destruct (nonneg_run float false configured envs
              (new_coordinator configured created))
    as [_ (Hsums & Hpv & Hgrid & _)].
  { apply Forall_forall. by intros env _ ?. }
  { split; [done | apply nonneg_new_coordinator]. }
  split; [| split; [| split]].
  - intros key v Hlook Hkey. by destruct (Hsums key v Hlook) as [[_ ?] | ?].
  - intros key v Hlook. by apply Qcle_not_lt, (Hpv key).
  - intros key v Hlook. by apply Qcle_not_lt, (Hgrid key).
  - intros Hread v Hlook.
    destruct (nonneg_run float true configured envs
                (new_coordinator configured created))
      as [_ (Hsums' & _)].
    { eapply Forall_impl; [exact Hread |]. by intros env ? _. }
    { split; [done | apply nonneg_new_coordinator]. }
    by destruct (Hsums' _ v Hlook) as [[? _] | ?].
Qed.

(** C8, as stated, fails: a battery content sensor that reads -1 Wh makes
    the total of [battery_energy] negative. *)
Lemma battery_energy_total_negative :
  let self := run float_of_integer [env_negative_battery] site_negative_battery in
  returns (_async_update_data float_of_integer env_negative_battery
             site_negative_battery) = true
  ∧ _energy_sums self !! "battery_energy" = Some (Qc_of_Z (-1))
  ∧ ¬ 0 ≤ get (_energy_sums self) "battery_energy" 0.
Proof. by_compute. Qed.

(** ** The cycle, unfolded *)

Lemma async_update_data_unfold float env self :
  _async_update_data float env self
  = match accounting float env self with
    | (self1, Return result) =>
        let self2 := car_charging_reset result (daily_reset env self1) in
        (save env self2,
         Return {| values := result; calculated_keys := _calculated_keys self2 |})
    | (self1, Raise e) => (self1, Raise e)
    end.
Proof.
  unfold _async_update_data, bind at 1.
  by destruct (accounting float env self) as [self1 [result | e]].
Qed.

Lemma accounting_raises float env self e :
  let self0 :=
    set_calculated_keys [] (set_last_update (now env) (initialize env self)) in
  get_raw_values float env (sensors self0) SENSOR_KEYS ∅ = Raise e →
  accounting float env self = (self0, Raise e).
Proof.
  intros self0 Hraw. unfold accounting, bind, modify, get_self.
  fold self0. by rewrite Hraw.
Qed.

Lemma initialize_sensors env self : sensors (initialize env self) = sensors self.
Proof. unfold initialize. by repeat case_match. Qed.

Lemma initialize_nonempty env self :
  _energy_sums self ≠ ∅ → initialize env self = self.
Proof. intros Hne. unfold initialize. by rewrite decide_False. Qed.

(** ** Unavailable sensors *)

(** A sensor whose state is missing, unknown, unavailable, or neither a
    number nor on/off has no value. *)
Lemma get_value_not_ready float env entity_id :
  (∀ st, states env !! entity_id = Some st →
     state st = None
     ∨ state st = Some "unknown"
     ∨ state st = Some "unavailable"
     ∨ ∃ s, state st = Some s ∧ float s = None ∧ s ≠ "on" ∧ s ≠ "off") →
  get_value float env entity_id = None.
Proof.
  intros Hst. unfold get_value. case_decide; [done |].
  destruct (states env !! entity_id) as [st |]; [| done].
  destruct (Hst st eq_refl) as [-> | [-> | [-> | (s & -> & Hf & Hon & Hoff)]]];
    [done | done | done |].
  case_decide; [done |]. rewrite Hf. by rewrite !decide_False.
Qed.

Lemma get_raw_values_raises float env sensors keys acc key entity_id :
  key ∈ keys →
  sensors !! key = Some entity_id →
  get_value float env entity_id = None →
  ∃ errmsg,
    get_raw_values float env sensors keys acc = Raise (UpdateFailed errmsg).
Proof.
  intros Hin Hs Hv. revert acc.
  induction keys as [| k keys IH]; intros acc; [by apply elem_of_nil in Hin |].
  simpl. destruct (decide (k = key)) as [-> | Hne].
  - rewrite Hs, Hv. eauto.
  - apply elem_of_cons in Hin as [-> | Hin]; [done |].
    destruct (sensors !! k) as [entity_id' |]; [| by apply IH].
    destruct (get_value float env entity_id'); [by apply IH | eauto].
Qed.

(** C5, as the code has it. When a configured sensor has no value
    (unavailable, unknown or not a number), the run raises [UpdateFailed]
    and leaves the coordinator as [# Initialize] left it, with the
    last-update timestamp set to the time of the run and the list of
    calculated keys emptied. If a total was in memory when the run started,
    the totals, the baselines, the mix sums, the last-reset timestamp, the
    last-connected flag and the store are what they were. *)
Theorem unavailable_sensor_aborts (float : string → option Qc) (env : Env)
    (self : EnergyStatsCoordinator) (key entity_id : string) :
  key ∈ SENSOR_KEYS →
  sensors self !! key = Some entity_id →
  get_value float env entity_id = None →
  ∃ errmsg,
    _async_update_data float env self
    = (set_calculated_keys []
         (set_last_update (now env) (initialize env self)),
       Raise (UpdateFailed errmsg))
    ∧ (_energy_sums self ≠ ∅ →
       let self' := cycle float self env in
       _energy_sums self' = _energy_sums self
       ∧ _energy_baselines self' = _energy_baselines self
       ∧ _pv_sums self' = _pv_sums self
       ∧ _grid_sums self' = _grid_sums self
       ∧ _last_reset self' = _last_reset self
       ∧ _car_connected_was self' = _car_connected_was self
       ∧ _store self' = _store self
       ∧ _last_update self' = now env).
Proof.
  intros Hin Hs Hv.
  destruct (get_raw_values_raises float env (sensors self) SENSOR_KEYS ∅
              key entity_id Hin Hs Hv) as [errmsg Hraw].
  exists errmsg.
  assert (_async_update_data float env self
          = (set_calculated_keys []
               (set_last_update (now env) (initialize env self)),
             Raise (UpdateFailed errmsg))) as Hrun.
  { rewrite async_update_data_unfold.
    rewrite (accounting_raises float env self (UpdateFailed errmsg)); [done |].
    cbn [sensors set_calculated_keys set_last_update].
    by rewrite initialize_sensors. }
  split; [exact Hrun |].
  intros Hne self'. unfold self', cycle. rewrite Hrun.
  by rewrite (initialize_nonempty env self Hne).
Qed.

(** The site of scenario D with its battery sensor unavailable. *)
Lemma unavailable_sensor_aborts_scenario :
  ∃ errmsg,
    _async_update_data float_of_integer env_unavailable site_D
    = (set_calculated_keys []
         (set_last_update (now env_unavailable)
            (initialize env_unavailable site_D)),
       Raise (UpdateFailed errmsg))
    ∧ (_energy_sums site_D ≠ ∅ →
       let self' := cycle float_of_integer site_D env_unavailable in
       _energy_sums self' = _energy_sums site_D
       ∧ _energy_baselines self' = _energy_baselines site_D
       ∧ _pv_sums self' = _pv_sums site_D
       ∧ _grid_sums self' = _grid_sums site_D
       ∧ _last_reset self' = _last_reset site_D
       ∧ _car_connected_was self' = _car_connected_was site_D
       ∧ _store self' = _store site_D
       ∧ _last_update self' = now env_unavailable).
Proof.
  apply (unavailable_sensor_aborts float_of_integer env_unavailable site_D
           "battery_power" "sensor.battery_power").
  - by_compute.
  - by_compute.
  - by_compute.
Defined.

(** C5, as stated, fails: the aborted run moves the last-update timestamp
    to the time of the run. *)
Lemma aborted_run_moves_last_update :
  let r := _async_update_data float_of_integer env_unavailable site_D in
  r.2 = Raise (UpdateFailed "Entity sensor.battery_power is not ready!")
  ∧ _last_update site_D = 0%Z
  ∧ _last_update r.1 = one_hour
  ∧ _last_update r.1 ≠ _last_update site_D.
Proof. by_compute. Qed.

(** ** The daily reset *)


Section LastReset.

Variable float : string → option Qc.
Variable r : Z.

Let P (self : EnergyStatsCoordinator) : Prop :=
  _energy_sums self ≠ ∅ ∧ _last_reset self = r.


End LastReset.








(** In that sequence it is the third run that resets. *)
Example crossing_resets_at_third_run :
  let self1 := cycle float_of_integer site_D (env_at one_hour (2 * one_hour)) in
  let self2 :=
    cycle float_of_integer self1 (env_down_at (3 * one_hour) (2 * one_hour)) in
  let self3 := cycle float_of_integer self2 (env_at (4 * one_hour) (2 * one_hour)) in
  performs_daily_reset float_of_integer (env_at one_hour (2 * one_hour)) site_D
  = false
  ∧ performs_daily_reset float_of_integer
      (env_down_at (3 * one_hour) (2 * one_hour)) self1 = false
  ∧ performs_daily_reset float_of_integer
      (env_at (4 * one_hour) (2 * one_hour)) self2 = true
  ∧ performs_daily_reset float_of_integer
      (env_at (5 * one_hour) (2 * one_hour)) self3 = false.
Proof. by_compute. Qed.

(** Why a total has to be in memory: a run that starts with none and finds
    nothing stored sets the last-reset timestamp to its own time in
    [# Initialize], and so does not reset, even when the coordinator was
    created before the reset instant. *)
Example first_run_does_not_reset :
  let env := env_grid_at (2 * one_hour) one_hour in
  (_last_reset site_grid_only < reset_time_utc env ≤ now env)%Z
  ∧ performs_daily_reset float_of_integer env site_grid_only = false
  ∧ _last_reset (cycle float_of_integer site_grid_only env) = now env.
Proof. by_compute. Qed.


(** The runs of one local day compare with the same instant. *)
Lemma reset_time_same_local_date (utc_offset daily_reset clock clock' : Z) :
  ((clock + utc_offset) `div` one_day = (clock' + utc_offset) `div` one_day)%Z →
  reset_time_on_local_date utc_offset daily_reset clock
  = reset_time_on_local_date utc_offset daily_reset clock'.
Proof. unfold reset_time_on_local_date. by intros ->. Qed.

(** C4, as the code has it. A daily reset that fires keeps the total and
    the baseline of [car_charging_energy] and the pv and grid sum of
    [battery_energy], each with the value it had, or 0 where none was
    stored; it removes every other total, every other baseline and every
    other mix sum, and sets the last-reset timestamp to the time of the
    run. A removed total or mix sum reads as 0; a removed baseline is
    absent, so that the next cumulative reading is taken as the new
    baseline. *)
Theorem daily_reset_keeps_car_and_battery (env : Env)
    (self : EnergyStatsCoordinator) :
  daily_reset_due env self = true →
  let self' := daily_reset env self in
  _energy_sums self' !! "car_charging_energy"
  = Some (get (_energy_sums self) "car_charging_energy" 0)
  ∧ _energy_baselines self' !! "car_charging_energy"
    = Some (get (_energy_baselines self) "car_charging_energy" 0)
  ∧ _pv_sums self' !! "battery_energy"
    = Some (get (_pv_sums self) "battery_energy" 0)
  ∧ _grid_sums self' !! "battery_energy"
    = Some (get (_grid_sums self) "battery_energy" 0)
  ∧ (∀ key, key ≠ "car_charging_energy" →
       _energy_sums self' !! key = None
       ∧ get (_energy_sums self') key 0 = 0
       ∧ _energy_baselines self' !! key = None)
  ∧ (∀ key, key ≠ "battery_energy" →
       _pv_sums self' !! key = None ∧ get (_pv_sums self') key 0 = 0
       ∧ _grid_sums self' !! key = None ∧ get (_grid_sums self') key 0 = 0)
  ∧ _last_reset self' = now env.
Proof.
  intros Hdue self'. unfold self', daily_reset. rewrite Hdue.
  unfold reset_daily_values, get.
  cbn [_energy_sums _energy_baselines _pv_sums _grid_sums _last_reset
       set_energy_sums set_energy_baselines set_pv_sums set_grid_sums
       set_last_reset].
  rewrite !lookup_singleton_eq.
  repeat split; try done; intros; by rewrite lookup_singleton_ne.
Qed.

(** The evening site at a run one hour after the reset instant. *)
Lemma daily_reset_keeps_car_and_battery_evening :
  let env := env_at (3 * one_hour) (2 * one_hour) in
  let self' := daily_reset env site_evening in
  _energy_sums self' !! "car_charging_energy" = Some (Qc_of_Z 300)
  ∧ _pv_sums self' !! "battery_energy" = Some (Qc_of_Z 8)
  ∧ _grid_sums self' !! "battery_energy" = Some (Qc_of_Z 2)
  ∧ _energy_sums self' !! "grid_in_energy_daily" = None
  ∧ _pv_sums self' !! "home_energy_daily" = None.
Proof.
  intros env self'.
  assert (daily_reset_due env site_evening = true) as Hdue by by_compute.
  destruct (daily_reset_keeps_car_and_battery env site_evening Hdue)
    as (Hcar & _ & Hpv & Hgrid & Hsums & Hmix & _).
  fold self' in Hcar, Hpv, Hgrid, Hsums, Hmix.
  split; [exact Hcar |]. split; [exact Hpv |]. split; [exact Hgrid |].
  split.
  - by apply (Hsums "grid_in_energy_daily").
  - by apply (Hmix "home_energy_daily").
Defined.

(** C4, as stated, fails on the baselines: after the reset of the evening
    site the baseline of [grid_in_energy_daily] is absent, not 0 (a reading
    of 5750 Wh is then taken as the new baseline and gives the total 0,
    where a baseline of 0 would give 5750), and the baseline of
    [car_charging_energy], absent before, is 0. *)
Lemma daily_reset_removes_baselines :
  let env := env_at (3 * one_hour) (2 * one_hour) in
  let self' := daily_reset env site_evening in
  daily_reset_due env site_evening = true
  ∧ _energy_baselines site_evening !! "grid_in_energy_daily" = Some (Qc_of_Z 5000)
  ∧ _energy_baselines self' !! "grid_in_energy_daily" = None
  ∧ _energy_baselines self' !! "grid_in_energy_daily" ≠ Some 0
  ∧ _energy_sums
      (_update_energy "grid_in_energy_daily" (Some (Qc_of_Z 5750)) None 0 self')
      !! "grid_in_energy_daily" = Some 0
  ∧ _energy_baselines site_evening !! "car_charging_energy" = None
  ∧ _energy_baselines self' !! "car_charging_energy" = Some 0
  ∧ _energy_baselines self' !! "car_charging_energy"
    ≠ _energy_baselines site_evening !! "car_charging_energy".
Proof. by_compute. Qed.

(** ** The session reset *)

(** What [# Car charging reset] does to the charging session: on the
    rising edge of the connection it sets the total to 0 and the baseline
    to the entry ["car_charging_energy"] of [result] (0 without one); on
    every other transition it leaves totals and baselines alone. *)
Lemma car_charging_reset_edges result self :
  let self' := car_charging_reset result self in
  let connected := truthy (get result "car_connected" 0) in
  _car_connected_was self' = connected
  ∧ (_car_connected_was self = false → connected = true →
     _energy_sums self' !! "car_charging_energy" = Some 0
     ∧ _energy_baselines self' !! "car_charging_energy"
       = Some (get result "car_charging_energy" 0))
  ∧ (_car_connected_was self = true ∨ connected = false →
     _energy_sums self' = _energy_sums self
     ∧ _energy_baselines self' = _energy_baselines self).
Proof.
  intros self' connected. unfold self', car_charging_reset. fold connected.
  destruct (_car_connected_was self), connected;
    cbn [negb andb _energy_sums _energy_baselines _car_connected_was
         set_energy_sums set_energy_baselines set_car_connected_was];
    rewrite ?lookup_insert_eq; split_and!; try done;
    try (intros [? | ?]; done); by intros.
Qed.

(** C2 on the code: the car is plugged in while the charging energy sensor
    reads 5750 Wh (baseline 5000 Wh). The run sets the session total to 0,
    but the baseline to 750 Wh, the session total it had just published,
    not to the reading of 5750 Wh; at the next run, with the same reading,
    the session total is 5000 Wh. *)
Theorem session_reset_baseline_is_session_total :
  let self' := cycle float_of_integer site_car (env_plug_in 5000000) in
  let self'' := cycle float_of_integer self' (env_plug_in 10000000) in
  returns (_async_update_data float_of_integer (env_plug_in 5000000) site_car)
  = true
  ∧ _car_connected_was site_car = false
  ∧ _car_connected_was self' = true
  ∧ get_value float_of_integer (env_plug_in 5000000) "sensor.car_energy"
    = Some (Qc_of_Z 5750)
  ∧ _energy_sums self' !! "car_charging_energy" = Some 0
  ∧ _energy_baselines self' !! "car_charging_energy" = Some (Qc_of_Z 750)
  ∧ _energy_baselines self' !! "car_charging_energy" ≠ Some (Qc_of_Z 5750)
  ∧ _energy_sums self'' !! "car_charging_energy" = Some (Qc_of_Z 5000).
Proof. by_compute. Qed.

(** ** The names of the totals *)

Lemma lookup_insert_account (sums : gmap string Qc) key v :
  key ∈ ACCOUNT_KEYS →
  (∀ k w, sums !! k = Some w → k ∈ ACCOUNT_KEYS) →
  ∀ k w, <[key := v]> sums !! k = Some w → k ∈ ACCOUNT_KEYS.
Proof.
  intros Hkey Hsums k w Hlook. destruct (decide (key = k)) as [<- | Hne].
  - done.
  - rewrite lookup_insert_ne in Hlook by done. by eapply Hsums.
Qed.

Lemma update_energy_account_keys key e p h self :
  key ∈ ACCOUNT_KEYS →
  account_keys_only self → account_keys_only (_update_energy key e p h self).
Proof.
  intros Hkey [Hsums Hstore].
  destruct (update_energy_frame key e p h self) as (_ & Hst & _).
  split; [| by rewrite Hst].
  unfold _update_energy. destruct e as [energy |].
  - destruct (_energy_baselines self !! key);
      cbn [_energy_sums set_energy_sums set_calculated_keys set_energy_baselines];
      by apply lookup_insert_account.
  - destruct p as [power |]; [| done]. case_decide; [| done].
    cbn [_energy_sums set_energy_sums set_calculated_keys].
    by apply lookup_insert_account.
Qed.

(** After any sequence of runs from a new coordinator the totals are
    stored under the names of the accounts, so that no total hides a
    reading of [result]. *)
Lemma account_keys_reachable float configured created envs :
  account_keys_only (run float envs (new_coordinator configured created)).
Proof.
  apply (preserves_run float account_keys_only (λ _, True)).
  - intros env self [Hsums Hstore]. unfold initialize.
    case_decide; [| done]. destruct (_store self) as [stored |] eqn:Hst.
    + split; cbn; [by apply Hstore |]. intros ? [= <-]. by apply Hstore.
    + split; cbn; done.
  - by intros v self HP.
  - by intros v self HP.
  - intros env raw_vals result elapsed_h self _ _ HP. unfold update_energies.
    repeat (apply update_energy_account_keys; [by_compute |]).
    destruct (raw_vals !! "battery_energy"); [| done].
    destruct HP as [Hsums Hstore]. split; [| done]. cbn.
    apply lookup_insert_account; [by_compute | done].
  - intros key pv grid bp f h uf self HP. destruct grid as [grid |]; [| done].
    by destruct (add_mix_energy_shape key pv grid bp f h uf self)
      as (a & b & _ & _ & ->).
  - intros env self [Hsums Hstore]. unfold daily_reset.
    destruct (daily_reset_due env self); [| done]. split; [| done]. cbn.
    intros k v Hlook. apply lookup_singleton_Some in Hlook as [<- _].
    by_compute.
  - intros result self [Hsums Hstore]. unfold car_charging_reset.
    destruct (negb (_car_connected_was self)
              && truthy (get result "car_connected" 0)); [| done].
    split; [| done]. cbn. apply lookup_insert_account; [by_compute | done].
  - intros env self [Hsums Hstore]. unfold save.
    destruct (save_ok env); [| done]. split; [done |]. cbn.
    by intros stored [= <-].
  - apply Forall_forall. done.
  - split; [| done]. cbn. intros key v Hlook. by rewrite lookup_empty in Hlook.
Qed.

(** In particular no total stands under the name of a power reading. *)
Lemma reachable_totals_hide_no_power float configured created envs :
  let self := run float envs (new_coordinator configured created) in
  _energy_sums self !! "car_charging_power" = None
  ∧ _energy_sums self !! "home_power" = None
  ∧ _energy_sums self !! "pv_power" = None
  ∧ _energy_sums self !! "grid_power" = None
  ∧ _energy_sums self !! "battery_power" = None
  ∧ _energy_sums self !! "battery_energy_mix" = None.
Proof.
  intros self.
  destruct (account_keys_reachable float configured created envs) as [Hkeys _].
  fold self in Hkeys.
  assert (∀ key, key ∉ ACCOUNT_KEYS → _energy_sums self !! key = None) as Hnone.
  { intros key Hkey. destruct (_energy_sums self !! key) as [v |] eqn:Hlook;
      [| done]. by apply Hkeys in Hlook. }
  split_and!; apply Hnone; by_compute.
Qed.

(** ** The usage factors *)

Lemma lookup_copy_value key raw_vals result key' :
  copy_value key raw_vals result !! key'
  = if decide (key = key')
    then match raw_vals !! key with
         | Some v => Some v
         | None => result !! key'
         end
    else result !! key'.
Proof.
  unfold copy_value. case_decide as Hkey.
  - subst key'. destruct (raw_vals !! key); [apply lookup_insert_eq | done].
  - destruct (raw_vals !! key); [by apply lookup_insert_ne | done].
Qed.

(** The car charging power of [result] is the reading. *)
Lemma momentary_values_car_charging_power raw_vals :
  momentary_values raw_vals !! "car_charging_power"
  = raw_vals !! "car_charging_power".
Proof.
  unfold momentary_values. rewrite lookup_copy_value, decide_False by done.
  transitivity
    (copy_value "car_charging_power" raw_vals
       (copy_value "grid_power" raw_vals ∅) !! "car_charging_power").
  - destruct (raw_vals !! "car_connected");
      rewrite !lookup_insert_ne by done;
      by do 3 rewrite lookup_copy_value, decide_False by done.
  - rewrite lookup_copy_value, decide_True by done.
    destruct (raw_vals !! "car_charging_power"); [done |].
    by rewrite lookup_copy_value, decide_False.
Qed.

(** C9, as the code has it. In a run without a car charging power reading
    (and no total stored under that name) [result] has no car charging
    power; the usage factor of the home consumption is then the home power
    of [result] divided by itself plus 0: exactly 1 when that home power
    is a finite number other than 0, and a division by zero, which raises
    [ZeroDivisionError], when it is 0. *)
Theorem home_usage_factor_without_car :
  (∀ raw_vals sums : gmap string Qc,
     raw_vals !! "car_charging_power" = None →
     sums !! "car_charging_power" = None →
     (sums ∪ momentary_values raw_vals) !! "car_charging_power" = None)
  ∧ ∀ (result : gmap string Qc) (self : EnergyStatsCoordinator),
      result !! "car_charging_power" = None →
      let home_power := get result "home_power" 0 in
      (finite home_power → home_power ≠ 0 →
       home_usage_factor result self = (self, Return 1))
      ∧ (home_power = 0 →
         home_usage_factor result self = (self, Raise ZeroDivisionError)).
Proof.
  split.
  - intros raw_vals sums Hraw Hsums. rewrite lookup_union_r by done.
    by rewrite momentary_values_car_charging_power.
  - intros result self Hcar home_power. unfold home_usage_factor, truediv.
    assert (get result "car_charging_power" 0 = 0) as ->
      by (unfold get; by rewrite Hcar).
    fold home_power. rewrite Qcplus_0_r. split.
    + intros _ Hne. rewrite decide_False by done. unfold ret. f_equal. f_equal.
      by field.
    + intros ->. by rewrite decide_True.
Qed.

(** A site whose only sensor, the grid power, reads 500 W. *)
Lemma home_usage_factor_without_car_grid_only :
  let result : gmap string Qc :=
    ∅ ∪ momentary_values {[ "grid_power" := Qc_of_Z 500 ]} in
  result !! "car_charging_power" = None
  ∧ finite (get result "home_power" 0)
  ∧ get result "home_power" 0 ≠ 0
  ∧ home_usage_factor result site_grid_only = (site_grid_only, Return 1).
Proof.
  cbv zeta.
  destruct home_usage_factor_without_car as [Hresult Hfactor].
  assert ((∅ ∪ momentary_values {[ "grid_power" := Qc_of_Z 500 ]})
            !! "car_charging_power" = None) as Hcar.
  { apply (Hresult {[ "grid_power" := Qc_of_Z 500 ]} ∅); by_compute. }
  assert (finite (get (∅ ∪ momentary_values {[ "grid_power" := Qc_of_Z 500 ]})
                    "home_power" 0)) as Hfinite
    by (split; by_compute).
  assert (get (∅ ∪ momentary_values {[ "grid_power" := Qc_of_Z 500 ]})
            "home_power" 0 ≠ 0) as Hne by by_compute.
  split; [exact Hcar |]. split; [exact Hfinite |]. split; [exact Hne |].
  exact (proj1 (Hfactor _ site_grid_only Hcar) Hfinite Hne).
Defined.

(** C9, as stated, fails: a site whose only sensor, the grid power, reads
    0 W has the home power 0, and the run raises [ZeroDivisionError] at the
    usage factor of the home consumption. *)
Lemma home_usage_factor_divides_by_zero :
  let raw_vals : gmap string Qc := {[ "grid_power" := 0 ]} in
  get_raw_values float_of_integer env_idle (sensors site_grid_only) SENSOR_KEYS ∅
  = Return raw_vals
  ∧ raw_vals !! "car_charging_power" = None
  ∧ raw_vals !! "battery_power" = None
  ∧ get (momentary_values raw_vals) "home_power" 0 = 0
  ∧ home_usage_factor (momentary_values raw_vals) site_grid_only
    = (site_grid_only, Raise ZeroDivisionError)
  ∧ (_async_update_data float_of_integer env_idle site_grid_only).2
    = Raise ZeroDivisionError.
Proof. by_compute. Qed.

(** C10, as the code has it. In a run whose battery power reading is zero
    or negative, the battery part of the mixes divides the negated battery
    power by pv_power + grid_power (a missing one counts as 0): when that
    sum is not 0 the usage factor is the quotient and the battery part
    returns; when the sum is 0 the division raises [ZeroDivisionError]. *)
Theorem battery_usage_factor_defined_iff (raw_vals result : gmap string Qc)
    (elapsed_h battery_power : Qc) (self : EnergyStatsCoordinator) :
  raw_vals !! "battery_power" = Some battery_power →
  battery_power ≤ 0 →
  let denominator := get result "pv_power" 0 + get result "grid_power" 0 in
  (denominator ≠ 0 →
   battery_usage_factor result self
   = (self, Return (- get result "battery_power" 0 / denominator))
   ∧ returns (battery_mix raw_vals result elapsed_h self) = true)
  ∧ (denominator = 0 →
     battery_mix raw_vals result elapsed_h self
     = (self, Raise ZeroDivisionError)).
Proof.
  intros Hraw Hbp denominator.
  unfold battery_mix, battery_usage_factor, truediv. rewrite Hraw.
  rewrite (decide_False (P := 0 < battery_power)) by by apply Qcle_not_lt.
  fold denominator. split; intros Hden.
  - rewrite decide_False by done. by split.
  - by rewrite decide_True.
Qed.

(** A run with a solar production of 1000 W, a grid power of 200 W and a
    battery that charges with 500 W. *)
Lemma battery_usage_factor_defined_iff_charging :
  let raw_vals : gmap string Qc :=
    {[ "battery_power" := Qc_of_Z (-500); "pv_power" := Qc_of_Z 1000;
       "grid_power" := Qc_of_Z 200 ]} in
  let result := momentary_values raw_vals in
  let denominator := get result "pv_power" 0 + get result "grid_power" 0 in
  (denominator ≠ 0 →
   battery_usage_factor result site_export
   = (site_export, Return (- get result "battery_power" 0 / denominator))
   ∧ returns (battery_mix raw_vals result 1 site_export) = true)
  ∧ (denominator = 0 →
     battery_mix raw_vals result 1 site_export
     = (site_export, Raise ZeroDivisionError)).
Proof.
  intros raw_vals result.
  apply (battery_usage_factor_defined_iff raw_vals result 1 (Qc_of_Z (-500))
           site_export).
  - by_compute.
  - by_compute.
Defined.

(** C10, as stated, fails: with a solar production of 1000 W fed into the
    grid (grid power -1000 W) and a battery charging with 500 W,
    pv_power + grid_power is 0 in the charge branch and the run raises
    [ZeroDivisionError] there; the home power is -500 W, so the division of
    the home consumption would have been defined. *)
Lemma battery_usage_factor_divides_by_zero :
  let raw_vals : gmap string Qc :=
    {[ "grid_power" := Qc_of_Z (-1000); "pv_power" := Qc_of_Z 1000;
       "battery_power" := Qc_of_Z (-500) ]} in
  let result := momentary_values raw_vals in
  get_raw_values float_of_integer env_export (sensors site_export) SENSOR_KEYS ∅
  = Return raw_vals
  ∧ get result "pv_power" 0 + get result "grid_power" 0 = 0
  ∧ battery_mix raw_vals result 1 site_export
    = (site_export, Raise ZeroDivisionError)
  ∧ home_usage_factor result site_export = (site_export, Return 1)
  ∧ (_async_update_data float_of_integer env_export site_export).2
    = Raise ZeroDivisionError.
Proof. by_compute. Qed.

(** * Further properties of the code *)

(** ** Sample acquisition *)

(** X1. A sensor has no value exactly when its entity id is empty, the
    state machine has no state for it, or its state is missing, unknown,
    unavailable, or neither a number nor on/off. *)
Theorem get_value_none_iff (float : string → option Qc) (env : Env)
    (entity_id : string) :
  get_value float env entity_id = None
  ↔ entity_id = ""
    ∨ states env !! entity_id = None
    ∨ ∃ st, states env !! entity_id = Some st
        ∧ (state st = None
           ∨ state st = Some "unknown"
           ∨ state st = Some "unavailable"
           ∨ ∃ s, state st = Some s ∧ float s = None ∧ s ≠ "on" ∧ s ≠ "off").
Proof.
  unfold get_value. split.
  - case_decide as Hid; [by left |]. intros Hnone. right.
    destruct (states env !! entity_id) as [st |]; [| by left]. right.
    exists st. split; [done |].
    destruct (state st) as [s |]; [| by left].
    case_decide as Hs.
    { apply elem_of_cons in Hs as [-> | Hs]; [by right; left |].
      apply list_elem_of_singleton in Hs as ->. by right; right; left. }
    right; right; right. exists s.
    destruct (float s) as [val |].
    { destruct (unit_of_measurement st); [case_decide |]; done. }
    repeat case_decide; done.
  - intros [-> | [Hst | (st & Hst & Hcases)]].
    + done.
    + case_decide; [done |]. by rewrite Hst.
    + case_decide; [done |]. rewrite Hst.
      destruct Hcases as [-> | [-> | [-> | (s & -> & Hf & Hon & Hoff)]]];
        [done | done | done |].
      case_decide; [done |]. rewrite Hf. by rewrite !decide_False.
Qed.

(** X2. A state that is a number is returned as it is, or times 1000 when
    its unit, in lower case as [str.lower()] gives it, is a spelling of
    kilowatt or kilowatt-hour; no unit scales it twice. *)
Theorem get_value_number (float : string → option Qc) (env : Env)
    (entity_id s : string) (st : State) (val : Qc) :
  entity_id ≠ "" →
  states env !! entity_id = Some st →
  state st = Some s →
  s ≠ "unknown" → s ≠ "unavailable" →
  float s = Some val →
  get_value float env entity_id
  = Some (if is_kilo_unit (unit_of_measurement st)
          then val * Qc_of_Z 1000 else val).
Proof.
  intros Hid Hst Hs Hunknown Hunavailable Hf. unfold get_value.
  rewrite decide_False by done. rewrite Hst, Hs.
  rewrite decide_False.
  2: { intros Hin. apply elem_of_cons in Hin as [-> | Hin]; [done |].
       by apply list_elem_of_singleton in Hin as ->. }
  rewrite Hf. unfold is_kilo_unit.
  destruct (unit_of_measurement st) as [unit |]; [| done].
  case_decide as Hempty; [by subst |].
  cbv zeta. f_equal.
  assert (Forall (λ u : string,
                    u ∉ ["kwh"; "kwhours"; "kilowatt-hour"; "kilowatt hour"])
            ["kw"; "kwatt"; "kilowatt"]) as Hdisjoint by by_compute.
  rewrite Forall_forall in Hdisjoint.
  change KILO_UNITS
    with (["kw"; "kwatt"; "kilowatt"]
          ++ ["kwh"; "kwhours"; "kilowatt-hour"; "kilowatt hour"]).
  destruct (decide (lower unit ∈ ["kw"; "kwatt"; "kilowatt"])) as [Hkw | Hkw],
    (decide (lower unit
             ∈ ["kwh"; "kwhours"; "kilowatt-hour"; "kilowatt hour"]))
      as [Hkwh | Hkwh];
    case_bool_decide as Hkilo; rewrite elem_of_app in Hkilo;
    try done; try (by destruct (Hdisjoint _ Hkw));
    try (destruct Hkilo; by auto); destruct Hkilo as [? | ?]; done.
Qed.

(** A solar power of 3 kW is read as 3000 W. *)
Lemma get_value_number_kilowatt :
  get_value float_of_integer env_kilowatt "sensor.pv_power"
  = Some (if is_kilo_unit (Some "kW")
          then Qc_of_Z 3 * Qc_of_Z 1000 else Qc_of_Z 3).
Proof.
  apply (get_value_number float_of_integer env_kilowatt "sensor.pv_power" "3"
           {| state := Some "3"; unit_of_measurement := Some "kW" |}).
  - done.
  - vm_compute. reflexivity.
  - done.
  - done.
  - done.
  - by_compute.
Defined.

(** A unit written with the KELVIN SIGN is a kilowatt after [lower()]:
    the state 2 is read as 2000 W. *)
Example get_value_kelvin_sign :
  get_value float_of_integer env_kelvin_sign "sensor.pv_power"
  = Some (Qc_of_Z 2000).
Proof. by_compute. Qed.


(** What the loop over [SENSOR_KEYS] leaves in [raw_vals], from any start. *)
Lemma get_raw_values_lookup_all float env sensors keys acc raw_vals :
  get_raw_values float env sensors keys acc = Return raw_vals →
  ∀ key,
    raw_vals !! key
    = if decide (key ∈ keys) then sensors !! key ≫= get_value float env
      else acc !! key.
Proof.
  revert acc. induction keys as [| k keys IH]; intros acc Hret key.
  - simpl in Hret. simplify_eq. by rewrite decide_False by apply not_elem_of_nil.
  - simpl in Hret.
    assert (∃ acc', get_raw_values float env sensors keys acc' = Return raw_vals
                    ∧ acc' !! k = sensors !! k ≫= get_value float env
                    ∧ ∀ key', key' ≠ k → acc' !! key' = acc !! key')
      as (acc' & Hret' & Hk & Hother).
    { destruct (sensors !! k) as [entity_id |] eqn:Hs.
      - destruct (get_value float env entity_id) as [value |] eqn:Hv; [| done].
        eexists. split; [exact Hret |]. split.
        + by rewrite lookup_insert_eq.
        + intros key' Hne. by rewrite lookup_insert_ne.
      - eexists. split; [exact Hret |]. split.
        + by rewrite lookup_delete_eq.
        + intros key' Hne. by rewrite lookup_delete_ne. }
    rewrite (IH acc' Hret' key).
    destruct (decide (key ∈ keys)) as [Hin | Hnotin].
    + rewrite decide_True; [done |]. by apply elem_of_cons; right.
    + destruct (decide (key = k)) as [-> | Hne].
      * rewrite decide_True; [done |]. by apply elem_of_cons; left.
      * rewrite decide_False; [by apply Hother |].
        intros Hin. by apply elem_of_cons in Hin as [? | ?].
Qed.

(** X3. The readings are complete or absent as a whole: the loop over
    [SENSOR_KEYS] returns exactly when every configured sensor has a value,
    and [raw_vals] then holds, for each key of [SENSOR_KEYS], the value of
    its sensor (no entry without a sensor) and nothing else. *)
Theorem get_raw_values_returns_iff (float : string → option Qc) (env : Env)
    (sensors : gmap string string) :
  ((∃ raw_vals,
      get_raw_values float env sensors SENSOR_KEYS ∅ = Return raw_vals)
   ↔ ∀ key entity_id,
       key ∈ SENSOR_KEYS → sensors !! key = Some entity_id →
       is_Some (get_value float env entity_id))
  ∧ ∀ raw_vals,
      get_raw_values float env sensors SENSOR_KEYS ∅ = Return raw_vals →
      ∀ key,
        raw_vals !! key
        = if decide (key ∈ SENSOR_KEYS)
          then sensors !! key ≫= get_value float env else None.
Proof.
  split; [split |].
  - intros [raw_vals Hret] key entity_id Hin Hs.
    destruct (get_value float env entity_id) as [v |] eqn:Hv; [by eexists |].
    destruct (get_raw_values_raises float env sensors SENSOR_KEYS ∅ key
                entity_id Hin Hs Hv) as [errmsg Hraise].
    by rewrite Hraise in Hret.
  - generalize (∅ : gmap string Qc). generalize SENSOR_KEYS.
    intros keys. induction keys as [| k keys IH]; intros acc Hready.
    + by eexists.
    + simpl. destruct (sensors !! k) as [entity_id |] eqn:Hs.
      * destruct (Hready k entity_id) as [v Hv]; [by left | done |].
        rewrite Hv. apply IH. intros key id Hin. apply Hready. by right.
      * apply IH. intros key id Hin. apply Hready. by right.
  - intros raw_vals Hret key.
    rewrite (get_raw_values_lookup_all _ _ _ _ _ _ Hret key).
    by rewrite lookup_empty.
Qed.

(** ** The published readings *)

Lemma lookup_copied_readings raw_vals key :
  copy_value "battery_power" raw_vals
    (copy_value "pv_power" raw_vals
       (copy_value "car_charging_limit_power" raw_vals
          (copy_value "car_charging_power" raw_vals
             (copy_value "grid_power" raw_vals ∅)))) !! key
  = if decide (key ∈ ["grid_power"; "car_charging_power";
                      "car_charging_limit_power"; "pv_power"; "battery_power"])
    then raw_vals !! key else None.
Proof.
  rewrite !lookup_copy_value, lookup_empty.
  destruct (decide (key ∈ ["grid_power"; "car_charging_power";
                           "car_charging_limit_power"; "pv_power";
                           "battery_power"])) as [Hin | Hin].
  - repeat (apply elem_of_cons in Hin as [-> | Hin];
            [repeat case_decide; try done; by repeat case_match |]).
    by apply elem_of_nil in Hin.
  - repeat (apply not_elem_of_cons in Hin as [? Hin]).
    by rewrite !decide_False.
Qed.

(** [result] as [# Momentary powers] and [# Other momentary values] leave
    it, with the home power written in terms of the readings. *)
Lemma momentary_values_unfold raw_vals :
  momentary_values raw_vals
  = let copied :=
      copy_value "battery_power" raw_vals
        (copy_value "pv_power" raw_vals
           (copy_value "car_charging_limit_power" raw_vals
              (copy_value "car_charging_power" raw_vals
                 (copy_value "grid_power" raw_vals ∅)))) in
    let result :=
      <["home_power" :=
          get raw_vals "grid_power" 0 + get raw_vals "pv_power" 0
          + get raw_vals "battery_power" 0
          - get raw_vals "car_charging_power" 0]> copied in
    copy_value "car_soc" raw_vals
      match raw_vals !! "car_connected" with
      | Some v => <["car_connected" := Qc_of_Z (int v)]> result
      | None => result
      end.
Proof.
  unfold momentary_values. cbv zeta.
  assert (∀ k, k ∈ ["grid_power"; "car_charging_power";
                     "car_charging_limit_power"; "pv_power"; "battery_power"] →
               get (copy_value "battery_power" raw_vals
                      (copy_value "pv_power" raw_vals
                         (copy_value "car_charging_limit_power" raw_vals
                            (copy_value "car_charging_power" raw_vals
                               (copy_value "grid_power" raw_vals ∅))))) k 0
               = get raw_vals k 0) as Hget.
  { intros k Hk. unfold get. by rewrite lookup_copied_readings, decide_True. }
  by rewrite !Hget by by_compute.
Qed.

(** X4. What [result] holds before the totals are merged in: the home
    power grid + pv + battery - car charging (a missing reading counts as
    0), the connection flag as an integer, the power readings and the
    car's state of charge as they were read, and nothing else; no energy
    reading is published. *)
Theorem momentary_values_lookup (raw_vals : gmap string Qc) (key : string) :
  momentary_values raw_vals !! key
  = if decide (key = "home_power") then
      Some (get raw_vals "grid_power" 0 + get raw_vals "pv_power" 0
            + get raw_vals "battery_power" 0
            - get raw_vals "car_charging_power" 0)
    else if decide (key = "car_connected") then
      (λ v, Qc_of_Z (int v)) <$> raw_vals !! "car_connected"
    else if decide (key ∈ PUBLISHED_READINGS) then raw_vals !! key
    else None.
Proof.
  rewrite momentary_values_unfold. cbv zeta. rewrite lookup_copy_value.
  destruct (decide (key = "home_power")) as [-> | Hhome].
  { rewrite decide_False by done.
    destruct (raw_vals !! "car_connected");
      rewrite ?lookup_insert_ne by done; by rewrite lookup_insert_eq. }
  destruct (decide (key = "car_connected")) as [-> | Hconnected].
  { rewrite decide_False by done.
    destruct (raw_vals !! "car_connected"); [by rewrite lookup_insert_eq |].
    rewrite lookup_insert_ne by done.
    by rewrite lookup_copied_readings, decide_False by by_compute. }
  assert (match raw_vals !! "car_connected" with
          | Some v =>
              <["car_connected" := Qc_of_Z (int v)]>
                (<["home_power" :=
                     get raw_vals "grid_power" 0 + get raw_vals "pv_power" 0
                     + get raw_vals "battery_power" 0
                     - get raw_vals "car_charging_power" 0]>
                   (copy_value "battery_power" raw_vals
                      (copy_value "pv_power" raw_vals
                         (copy_value "car_charging_limit_power" raw_vals
                            (copy_value "car_charging_power" raw_vals
                               (copy_value "grid_power" raw_vals ∅))))))
          | None =>
              <["home_power" :=
                  get raw_vals "grid_power" 0 + get raw_vals "pv_power" 0
                  + get raw_vals "battery_power" 0
                  - get raw_vals "car_charging_power" 0]>
                (copy_value "battery_power" raw_vals
                   (copy_value "pv_power" raw_vals
                      (copy_value "car_charging_limit_power" raw_vals
                         (copy_value "car_charging_power" raw_vals
                            (copy_value "grid_power" raw_vals ∅)))))
          end !! key
          = if decide (key ∈ ["grid_power"; "car_charging_power";
                              "car_charging_limit_power"; "pv_power";
                              "battery_power"])
            then raw_vals !! key else None) as ->.
  { destruct (raw_vals !! "car_connected");
      rewrite !lookup_insert_ne by done; apply lookup_copied_readings. }
  unfold PUBLISHED_READINGS.
  destruct (decide (key = "car_soc")) as [-> | Hsoc].
  - rewrite decide_True by done. rewrite decide_False by by_compute.
    rewrite decide_True by by_compute. by destruct (raw_vals !! "car_soc").
  - rewrite (decide_False (P := "car_soc" = key)) by done.
    destruct (decide (key ∈ ["grid_power"; "car_charging_power";
                             "car_charging_limit_power"; "pv_power";
                             "battery_power"])) as [Hin | Hin].
    + rewrite decide_True; [done |].
      repeat (apply elem_of_cons in Hin as [-> | Hin]; [by_compute |]).
      by apply elem_of_nil in Hin.
    + rewrite decide_False; [done |]. intros Hin'. apply Hin.
      repeat (apply elem_of_cons in Hin' as [-> | Hin']; [by_compute || done |]).
      by apply elem_of_nil in Hin'.
Qed.

(** ** Properties established and kept by one run *)

Section RunInvariant.

Variable float : string → option Qc.
Variable env : Env.
Variable P0 P : EnergyStatsCoordinator → Prop.

Hypothesis P_start :
  ∀ self,
    P0 self →
    P (set_calculated_keys []
         (set_last_update (now env) (initialize env self))).
Hypothesis P_calculated_keys :
  ∀ v self, P self → P (set_calculated_keys v self).
Hypothesis P_energies :
  ∀ raw_vals result elapsed_h self,
    get_raw_values float env (sensors self) SENSOR_KEYS ∅ = Return raw_vals →
    P self → P (update_energies raw_vals result elapsed_h self).
Hypothesis P_battery_call :
  ∀ pv grid bp uf self,
    P self → P (_add_mix_energy "battery_energy" pv grid bp None 0 uf self).
Hypothesis P_consumer_call :
  ∀ key pv grid bp f h uf self,
    key ≠ "battery_energy" →
    P self → P (_add_mix_energy key pv grid bp f h uf self).

Lemma battery_mix_keeps raw_vals result elapsed_h :
  preserves P (battery_mix raw_vals result elapsed_h).
Proof.
  unfold battery_mix, battery_usage_factor. case_match; [| apply preserves_ret].
  apply preserves_bind.
  - case_decide.
    + by apply preserves_modify, P_battery_call.
    + apply preserves_bind; [apply preserves_truediv |].
      intros uf. by apply preserves_modify, P_battery_call.
  - intros _. apply preserves_get_self. intros self _.
    apply preserves_bind; [by apply preserves_modify, P_calculated_keys |].
    intros _. apply preserves_ret.
Qed.

Lemma home_mix_keeps result elapsed_h :
  preserves P (home_mix result elapsed_h).
Proof.
  unfold home_mix, home_usage_factor.
  apply preserves_bind; [apply preserves_truediv |]. intros uf.
  apply preserves_bind.
  { apply preserves_modify. intros self. by apply P_consumer_call. }
  intros _. apply preserves_get_self. intros self _.
  apply preserves_bind; [by apply preserves_modify, P_calculated_keys |].
  intros _. apply preserves_ret.
Qed.

Lemma car_mix_keeps raw_vals result elapsed_h :
  preserves P (car_mix raw_vals result elapsed_h).
Proof.
  unfold car_mix, car_usage_factor. case_match; [| apply preserves_ret].
  apply preserves_bind; [apply preserves_truediv |]. intros uf.
  apply preserves_bind.
  { apply preserves_modify. intros self. by apply P_consumer_call. }
  intros _. apply preserves_get_self. intros self _.
  apply preserves_bind; [by apply preserves_modify, P_calculated_keys |].
  intros _. apply preserves_ret.
Qed.

(** The part of the run before [# Daily reset]. *)
Lemma run_invariant_accounting self :
  P0 self → P (accounting float env self).1.
Proof.
  intros HP0. apply P_start in HP0. revert HP0. unfold accounting.
  unfold bind at 1, modify at 1. cbv beta iota.
  unfold bind at 1, get_self at 1. cbv beta iota zeta.
  unfold bind at 1, modify at 1. cbv beta iota.
  unfold bind at 1, modify at 1. cbv beta iota.
  generalize (set_calculated_keys []
                (set_last_update (now env) (initialize env self))).
  generalize (total_seconds (now env - _last_update (initialize env self))
              / Qc_of_Z 3600).
  intros elapsed_h self0 HP. unfold bind at 1.
  destruct (get_raw_values float env (sensors self0) SENSOR_KEYS ∅)
    as [raw_vals | e] eqn:Hraw; [| done].
  unfold bind at 1, modify at 1.
  apply (preserves_get_self P); [| by eapply P_energies]. intros self1 _.
  apply preserves_bind; [apply battery_mix_keeps |]. intros result.
  apply preserves_bind; [apply home_mix_keeps |]. intros result'.
  apply car_mix_keeps.
Qed.

Hypothesis P_daily_reset : ∀ self, P self → P (daily_reset env self).
Hypothesis P_car_charging_reset :
  ∀ result self, P self → P (car_charging_reset result self).
Hypothesis P_save : ∀ self, P self → P (save env self).

(** The whole run, whether it returns or raises. *)
Lemma run_invariant self : P0 self → P (cycle float self env).
Proof.
  intros HP0. apply run_invariant_accounting in HP0.
  unfold cycle. rewrite async_update_data_unfold.
  destruct (accounting float env self) as [self1 [result | e]];
    cbn [fst] in *; [| done].
  by apply P_save, P_car_charging_reset, P_daily_reset.
Qed.

End RunInvariant.

(** ** The energy integrator, further *)

Lemma pymax_mono (a b c : Qc) : b ≤ c → pymax a b ≤ pymax a c.
Proof.
  intros Hbc. unfold pymax. repeat case_decide.
  - done.
  - exfalso. by eapply H0, Qclt_le_trans.
  - by apply Qclt_le_weak.
  - apply Qcle_refl.
Qed.

(** X5. [_update_energy] touches one account: the totals and baselines of
    the other keys, both mix dicts, the timestamps, the store and the
    connection flag are what they were. *)
Theorem update_energy_other_keys (key : string) (e p : option Qc) (h : Qc)
    (self : EnergyStatsCoordinator) :
  let self' := _update_energy key e p h self in
  (∀ key', key' ≠ key →
     _energy_sums self' !! key' = _energy_sums self !! key'
     ∧ _energy_baselines self' !! key' = _energy_baselines self !! key')
  ∧ _pv_sums self' = _pv_sums self
  ∧ _grid_sums self' = _grid_sums self
  ∧ _last_update self' = _last_update self
  ∧ _last_reset self' = _last_reset self
  ∧ _store self' = _store self
  ∧ _car_connected_was self' = _car_connected_was self.
Proof.
  intros self'.
  destruct (update_energy_frame key e p h self)
    as (_ & Hst & Hlu & Hlr & Hpv & Hgrid & Hcar).
  split; [| done].
  intros key' Hne. unfold self', _update_energy.
  destruct e as [energy |].
  - destruct (_energy_baselines self !! key);
      cbn [_energy_sums _energy_baselines set_energy_sums set_calculated_keys
           set_energy_baselines];
      by rewrite ?lookup_insert_ne.
  - destruct p as [power |]; [| done]. case_decide; [| done].
    cbn [_energy_sums _energy_baselines set_energy_sums set_calculated_keys].
    by rewrite lookup_insert_ne.
Qed.

(** X6. A cumulative sensor that does not go down gives a total that does
    not go down: of two successive updates of an account with readings
    e1 ≤ e2, the second total is at least the first, whatever baseline was
    or was not stored before. *)
Theorem update_energy_monotone (key : string) (e1 e2 : Qc)
    (p1 p2 : option Qc) (h1 h2 : Qc) (self : EnergyStatsCoordinator) :
  e1 ≤ e2 →
  let self1 := _update_energy key (Some e1) p1 h1 self in
  let self2 := _update_energy key (Some e2) p2 h2 self1 in
  get (_energy_sums self1) key 0 ≤ get (_energy_sums self2) key 0.
Proof.
  intros He self1 self2.
  assert (∃ baseline,
            _energy_baselines self1 !! key = Some baseline
            ∧ get (_energy_sums self1) key 0 = pymax 0 (e1 - baseline))
    as (baseline & Hb & ->).
  { unfold self1, _update_energy.
    destruct (_energy_baselines self !! key) as [b |] eqn:Hlook;
      cbn [_energy_sums _energy_baselines set_energy_sums set_calculated_keys
           set_energy_baselines];
      rewrite get_insert_eq; eexists; split; try done.
    by rewrite lookup_insert_eq. }
  unfold self2, _update_energy. rewrite Hb.
  cbn [_energy_sums _energy_baselines set_energy_sums set_calculated_keys].
  rewrite get_insert_eq. apply pymax_mono.
  by apply Qcplus_le_mono_r.
Qed.

(** Two readings of 5750 Wh on a new site. *)
Lemma update_energy_monotone_scenario :
  let self1 :=
    _update_energy "grid_in_energy_daily" (Some (Qc_of_Z 5750)) None 0 site_B in
  let self2 :=
    _update_energy "grid_in_energy_daily" (Some (Qc_of_Z 5750)) None 0 self1 in
  get (_energy_sums self1) "grid_in_energy_daily" 0
  ≤ get (_energy_sums self2) "grid_in_energy_daily" 0.
Proof.
  apply (update_energy_monotone "grid_in_energy_daily" (Qc_of_Z 5750)
           (Qc_of_Z 5750) None None 0 0 site_B).
  by_compute.
Defined.

Lemma round_half_even_mono (x y : Qc) :
  x ≤ y → (round_half_even x ≤ round_half_even y)%Z.
Proof.
  intros Hxy.
  assert (Qfloor x ≤ Qfloor y)%Z as Hfloor by by apply Qfloor_resp_le.
  assert (round_half_even x ≤ Qfloor x + 1)%Z as Hx.
  { unfold round_half_even. repeat case_decide; try destruct (Z.even _); lia. }
  assert (Qfloor y ≤ round_half_even y)%Z as Hy.
  { unfold round_half_even. repeat case_decide; try destruct (Z.even _); lia. }
  destruct (decide (Qfloor x = Qfloor y)) as [Heq | Hne]; [| lia].
  clear Hx Hy Hfloor. unfold round_half_even. rewrite <-Heq.
  repeat case_decide; try destruct (Z.even (Qfloor x)); try lia;
    exfalso;
    repeat match goal with
    | H : ¬ _ < _ |- _ => apply Qcnot_lt_le in H
    end;
    qc_to_q; lra.
Qed.

Lemma round_mono (x y : Qc) (ndigits : nat) :
  x ≤ y → round x ndigits ≤ round y ndigits.
Proof.
  intros Hxy. unfold round.
  assert (0 < Qc_of_Z (10 ^ Z.of_nat ndigits)) as Hs.
  { apply Qc_of_Z_pos. apply Z.pow_pos_nonneg; lia. }
  unfold Qcdiv. apply Qcmult_le_mono_nonneg_r.
  - by apply Qclt_le_weak, Qcinv_pos.
  - apply (proj1 (Z2Qc_inj_le _ _)), round_half_even_mono.
    by apply Qcmult_le_mono_nonneg_r; [apply Qclt_le_weak |].
Qed.

(** X7. Integrating a power never lowers a total and never subtracts a
    negative power: for a total with at most 3 decimal places, the total
    after [_update_energy] without an energy reading is at least the total
    before, and within 0.0005 Wh of total + power × elapsed hours when it
    changes. *)
Theorem update_energy_power_bounds (key : string) (p : option Qc) (h : Qc)
    (self : EnergyStatsCoordinator) :
  let prev := get (_energy_sums self) key 0 in
  let new := get (_energy_sums (_update_energy key None p h self)) key 0 in
  round prev 3 = prev →
  prev ≤ new
  ∧ (new ≠ prev →
     ∃ power, p = Some power ∧ 0 < power ∧ 0 < h
       ∧ prev + power * h - 1 / (2 * Qc_of_Z 1000) ≤ new
       ∧ new ≤ prev + power * h + 1 / (2 * Qc_of_Z 1000)).
Proof.
  intros prev new Hprev. unfold new, _update_energy.
  destruct p as [power |]; [| split; [apply Qcle_refl | done]].
  case_decide as Hpos; [| split; [apply Qcle_refl | done]].
  destruct Hpos as [Hh Hp].
  cbn [_energy_sums set_energy_sums set_calculated_keys].
  rewrite get_insert_eq. fold prev. split.
  - rewrite <-Hprev at 1. apply round_mono.
    rewrite <-(Qcplus_0_r prev) at 1. apply Qcplus_le_mono_l.
    apply Qclt_le_weak. by apply Qcmult_pos_pos.
  - intros _. exists power. split; [done |]. split; [done |]. split; [done |].
    by destruct (round_near (prev + power * h) 3) as (_ & Hlo & Hhi).
Qed.

(** A total of 10 Wh and 100 W over one hour. *)
Lemma update_energy_power_bounds_scenario :
  let prev := get (_energy_sums site_D) "home_energy_daily" 0 in
  let new :=
    get (_energy_sums
           (_update_energy "home_energy_daily" None (Some (Qc_of_Z 100)) 1 site_D))
      "home_energy_daily" 0 in
  prev ≤ new
  ∧ (new ≠ prev →
     ∃ power, Some (Qc_of_Z 100) = Some power ∧ 0 < power ∧ 0 < 1
       ∧ prev + power * 1 - 1 / (2 * Qc_of_Z 1000) ≤ new
       ∧ new ≤ prev + power * 1 + 1 / (2 * Qc_of_Z 1000)).
Proof.
  apply (update_energy_power_bounds "home_energy_daily" (Some (Qc_of_Z 100)) 1
           site_D).
  by_compute.
Defined.

(** ** The energy-mix apportioner, further *)

Lemma clamp_is_pymax (x : Qc) : (if decide (x < 0) then 0 else x) = pymax 0 x.
Proof.
  unfold pymax. repeat case_decide; try done.
  - exfalso. by eapply (Qclt_not_le x 0), Qclt_le_weak.
  - apply Qcle_antisym; by apply Qcnot_lt_le.
Qed.

(** The two sums after a call with a grid power: the old sum plus a
    contribution that is the elapsed time, times the usage factor, times
    a power floored at 0; the result floored at 0. *)
Lemma add_mix_energy_sums key pv grid bp f h uf self :
  ∃ pv_power grid_power : Qc,
    let self' := _add_mix_energy key pv (Some grid) bp f h uf self in
    get (_pv_sums self') key 0
    = pymax 0 (get (_pv_sums self) key 0
               + pymax 0 pv_power * h * default 1 uf)
    ∧ get (_grid_sums self') key 0
      = pymax 0 (get (_grid_sums self) key 0
                 + pymax 0 grid_power * h * default 1 uf).
Proof.
  unfold _add_mix_energy.
  match goal with
  | |- context [match ?p with pair _ _ => _ end] =>
      destruct p as [pv_power grid_power]
  end.
  exists pv_power, grid_power. cbv zeta.
  assert (∀ a b : Qc, (match uf with
            | Some u => (a * u, b * u) | None => (a, b) end)
          = (a * default 1 uf, b * default 1 uf)) as ->.
  { intros a b. destruct uf; cbn [default from_option id]; [done |].
    by rewrite !Qcmult_1_r. }
  cbn [_pv_sums _grid_sums set_pv_sums set_grid_sums].
  rewrite get_insert_eq.
  set (a := get (_pv_sums self) key 0 + pymax 0 pv_power * h * default 1 uf).
  set (b := get (_grid_sums self) key 0
            + pymax 0 grid_power * h * default 1 uf).
  rewrite <-(clamp_is_pymax a), <-(clamp_is_pymax b).
  destruct (decide (a < 0));
    cbn [_pv_sums _grid_sums set_pv_sums set_grid_sums];
    rewrite !get_insert_eq;
    destruct (decide (b < 0));
    cbn [_pv_sums _grid_sums set_pv_sums set_grid_sums];
    by rewrite ?get_insert_eq.
Qed.

(** The discharge branch of [# Energy Mixes] books nothing: whatever the
    reading above 0, the mix and the elapsed time are, the sums of the
    battery account, when not negative, are what they were. *)
Lemma battery_mix_discharge_books_nothing raw_vals result elapsed_h bp self :
  raw_vals !! "battery_power" = Some bp → 0 < bp →
  0 ≤ get (_pv_sums self) "battery_energy" 0 →
  0 ≤ get (_grid_sums self) "battery_energy" 0 →
  let self' := (battery_mix raw_vals result elapsed_h self).1 in
  get (_pv_sums self') "battery_energy" 0
  = get (_pv_sums self) "battery_energy" 0
  ∧ get (_grid_sums self') "battery_energy" 0
    = get (_grid_sums self) "battery_energy" 0.
Proof.
  intros Hbp Hpos Hpv Hgrid. unfold battery_mix. rewrite Hbp.
  rewrite decide_True by done.
  unfold bind, modify, get_self, ret. cbn [fst _pv_sums _grid_sums
    set_calculated_keys].
  destruct (add_mix_energy_sums "battery_energy"
              (Some (- get result "battery_power" 0
                     * get result "battery_energy_mix" 0))
              (- get result "battery_power" 0
               * (1 - get result "battery_energy_mix" 0))
              (Some elapsed_h) None 0 None self)
    as (a & b & -> & ->).
  rewrite !Qcmult_0_r, !Qcmult_0_l, !Qcplus_0_r.
  by rewrite !pymax_0_pos.
Qed.

(** X8. [_add_mix_energy] writes the pv sum and the grid sum of its key
    and nothing else, and does nothing at all without a grid power. *)
Theorem add_mix_energy_frame (key : string) (pv grid bp f : option Qc)
    (h : Qc) (uf : option Qc) (self : EnergyStatsCoordinator) :
  let self' := _add_mix_energy key pv grid bp f h uf self in
  (grid = None → self' = self)
  ∧ (∀ key', key' ≠ key →
       _pv_sums self' !! key' = _pv_sums self !! key'
       ∧ _grid_sums self' !! key' = _grid_sums self !! key')
  ∧ _energy_sums self' = _energy_sums self
  ∧ _energy_baselines self' = _energy_baselines self
  ∧ _last_update self' = _last_update self
  ∧ _last_reset self' = _last_reset self
  ∧ _store self' = _store self
  ∧ _car_connected_was self' = _car_connected_was self
  ∧ _calculated_keys self' = _calculated_keys self.
Proof.
  intros self'. unfold self'. destruct grid as [grid |].
  - destruct (add_mix_energy_shape key pv grid bp f h uf self)
      as (a & b & Ha & Hb & ->).
    cbn [_pv_sums _grid_sums _energy_sums _energy_baselines _last_update
         _last_reset _store _car_connected_was _calculated_keys set_pv_sums
         set_grid_sums].
    split; [done |]. split; [| done].
    intros key' Hne. by rewrite !lookup_insert_ne.
  - done.
Qed.

(** X9. With a usage factor and an elapsed time that are not negative, a
    call of [_add_mix_energy] never lowers a sum that is not negative, and
    with no elapsed time it leaves both sums as they are. *)
Theorem add_mix_energy_grows (key : string) (pv grid bp f : option Qc)
    (h : Qc) (uf : option Qc) (self : EnergyStatsCoordinator) :
  0 ≤ h → 0 ≤ default 1 uf →
  0 ≤ get (_pv_sums self) key 0 → 0 ≤ get (_grid_sums self) key 0 →
  let self' := _add_mix_energy key pv grid bp f h uf self in
  get (_pv_sums self) key 0 ≤ get (_pv_sums self') key 0
  ∧ get (_grid_sums self) key 0 ≤ get (_grid_sums self') key 0
  ∧ (h = 0 →
     get (_pv_sums self') key 0 = get (_pv_sums self) key 0
     ∧ get (_grid_sums self') key 0 = get (_grid_sums self) key 0).
Proof.
  intros Hh Hu Hpv Hgrid self'. unfold self'.
  destruct grid as [grid |]; [| by repeat split; try apply Qcle_refl].
  destruct (add_mix_energy_sums key pv grid bp f h uf self)
    as (pv_power & grid_power & Hpv' & Hgrid').
  cbv zeta in Hpv', Hgrid'. rewrite Hpv', Hgrid'.
  assert (∀ old power : Qc,
            0 ≤ old → old ≤ pymax 0 (old + pymax 0 power * h * default 1 uf))
    as Hgrow.
  { intros old power Hold. eapply Qcle_trans; [| apply pymax_ge_r].
    rewrite <-(Qcplus_0_r old) at 1. apply Qcplus_le_mono_l.
    repeat apply Qcmult_nonneg_nonneg; try done. apply pymax_ge_l. }
  split; [by apply Hgrow |]. split; [by apply Hgrow |].
  intros ->. rewrite !Qcmult_0_r, !Qcmult_0_l, !Qcplus_0_r.
  by rewrite !pymax_0_pos.
Qed.

(** The home account of scenario D over half an hour. *)
Lemma add_mix_energy_grows_scenario :
  let self' :=
    _add_mix_energy "home_energy_daily" (Some (Qc_of_Z 2000))
      (Some (Qc_of_Z 1000)) (Some 0) (Some 0) (1 / 2) (Some 1) site_D in
  get (_pv_sums site_D) "home_energy_daily" 0
  ≤ get (_pv_sums self') "home_energy_daily" 0
  ∧ get (_grid_sums site_D) "home_energy_daily" 0
    ≤ get (_grid_sums self') "home_energy_daily" 0
  ∧ (1 / 2 = 0 →
     get (_pv_sums self') "home_energy_daily" 0
     = get (_pv_sums site_D) "home_energy_daily" 0
     ∧ get (_grid_sums self') "home_energy_daily" 0
       = get (_grid_sums site_D) "home_energy_daily" 0).
Proof.
  apply (add_mix_energy_grows "home_energy_daily" (Some (Qc_of_Z 2000))
           (Some (Qc_of_Z 1000)) (Some 0) (Some 0) (1 / 2) (Some 1) site_D);
    by_compute.
Defined.

(** ** The mix ratio *)

Lemma mix_ratio_range key self :
  0 ≤ get (_pv_sums self) key 0 → 0 ≤ get (_grid_sums self) key 0 →
  0 ≤ _mix_ratio key self ≤ 1.
Proof.
  intros Hpv Hgrid. unfold _mix_ratio. cbv zeta.
  case_decide as Htotal; [| split; [apply Qcle_refl | by_compute]].
  split.
  - by apply Qcdiv_nonneg_pos.
  - unfold Qcdiv.
    rewrite <-(Qcmult_inv_r (get (_pv_sums self) key 0
                             + get (_grid_sums self) key 0))
      by (by apply Qclt_not_eq in Htotal).
    apply Qcmult_le_mono_nonneg_r; [by apply Qclt_le_weak, Qcinv_pos |].
    rewrite <-(Qcplus_0_r (get (_pv_sums self) key 0)) at 1.
    by apply Qcplus_le_mono_l.
Qed.

(** X10. After any sequence of runs from a new coordinator the mix ratio
    of every account lies between 0 and 1, and it is 0 for an account
    whose two sums are 0. *)
Theorem mix_ratio_reachable (float : string → option Qc)
    (configured : gmap string string) (created : Z) (envs : list Env)
    (key : string) :
  let self := run float envs (new_coordinator configured created) in
  0 ≤ _mix_ratio key self ≤ 1
  ∧ (get (_pv_sums self) key 0 = 0 → get (_grid_sums self) key 0 = 0 →
     _mix_ratio key self = 0).
Proof.
  intros self.
  destruct (nonneg_run float false configured envs
              (new_coordinator configured created))
    as [_ (_ & Hpv & Hgrid & _)].
  { apply Forall_forall. by intros env _ ?. }
  { split; [done | apply nonneg_new_coordinator]. }
  split.
  - apply mix_ratio_range; by apply mix_nonneg_get.
  - intros Hp Hg. unfold _mix_ratio. cbv zeta. fold self. rewrite Hp, Hg.
    by rewrite decide_False by by_compute.
Qed.

(** ** The daily reset, further *)

(** X11. The daily reset does not fire twice: applied again with the same
    clock and reset instant, [# Daily reset] changes nothing. *)
Theorem daily_reset_idempotent (env : Env) (self : EnergyStatsCoordinator) :
  daily_reset env (daily_reset env self) = daily_reset env self
  ∧ daily_reset_due env (daily_reset env self) = false.
Proof.
  assert (daily_reset_due env (daily_reset env self) = false) as Hdue.
  { unfold daily_reset. destruct (daily_reset_due env self) eqn:Hdue.
    - unfold daily_reset_due in *. apply bool_decide_eq_true in Hdue.
      apply bool_decide_eq_false. cbn. lia.
    - done. }
  split; [| done]. unfold daily_reset at 1. by rewrite Hdue.
Qed.

(** ** What one run does and does not do *)

Lemma update_energies_frame raw_vals result elapsed_h self :
  let self' := update_energies raw_vals result elapsed_h self in
  sensors self' = sensors self ∧ _store self' = _store self
  ∧ _last_update self' = _last_update self
  ∧ _last_reset self' = _last_reset self
  ∧ _pv_sums self' = _pv_sums self ∧ _grid_sums self' = _grid_sums self
  ∧ _car_connected_was self' = _car_connected_was self.
Proof.
  unfold update_energies. cbv zeta.
  repeat match goal with
  | |- context [_update_energy ?k ?e ?p ?h ?s] =>
      let H := fresh in
      pose proof (update_energy_frame k e p h s) as H; cbv zeta in H;
      destruct H as (-> & -> & -> & -> & -> & -> & ->)
  end.
  by destruct (raw_vals !! "battery_energy").
Qed.

Lemma add_mix_energy_fields key pv grid bp f h uf self :
  let self' := _add_mix_energy key pv grid bp f h uf self in
  sensors self' = sensors self ∧ _store self' = _store self
  ∧ _last_update self' = _last_update self
  ∧ _last_reset self' = _last_reset self
  ∧ _energy_sums self' = _energy_sums self
  ∧ _car_connected_was self' = _car_connected_was self.
Proof.
  destruct grid as [grid |]; [| done].
  by destruct (add_mix_energy_shape key pv grid bp f h uf self)
    as (a & b & _ & _ & ->).
Qed.

(** X12. Every run, whether it returns or raises, leaves the configured
    sensors as they are and the last-update timestamp at the time of the
    run. *)
Theorem run_sets_last_update (float : string → option Qc) (env : Env)
    (self : EnergyStatsCoordinator) :
  sensors (cycle float self env) = sensors self
  ∧ _last_update (cycle float self env) = now env.
Proof.
  apply (run_invariant float env
           (λ s, sensors s = sensors self)
           (λ s, sensors s = sensors self ∧ _last_update s = now env)).
  - intros s Hs. split; [| done]. cbn. by rewrite initialize_sensors.
  - by intros v s Hs.
  - intros raw_vals result elapsed_h s _ [Hs Hu].
    by destruct (update_energies_frame raw_vals result elapsed_h s)
      as (-> & _ & -> & _).
  - intros pv grid bp uf s [Hs Hu].
    by destruct (add_mix_energy_fields "battery_energy" pv grid bp None 0 uf s)
      as (-> & _ & -> & _).
  - intros key pv grid bp f h uf s _ [Hs Hu].
    by destruct (add_mix_energy_fields key pv grid bp f h uf s)
      as (-> & _ & -> & _).
  - intros s Hs. unfold daily_reset. by destruct (daily_reset_due env s).
  - intros result s Hs. unfold car_charging_reset. by case_match.
  - intros s Hs. unfold save. by destruct (save_ok env).
  - done.
Qed.

(** X13. A run that raises, with either exception, has not saved and has
    not reset: the store is what it was, and with a total in memory so are
    the last-reset timestamp and the last-connected flag. *)
Theorem raising_run_does_not_save (float : string → option Qc) (env : Env)
    (self : EnergyStatsCoordinator) (e : Exception) :
  (_async_update_data float env self).2 = Raise e →
  let self' := cycle float self env in
  _store self' = _store self
  ∧ (_energy_sums self ≠ ∅ →
     _last_reset self' = _last_reset self
     ∧ _car_connected_was self' = _car_connected_was self).
Proof.
  intros Hraise self'. unfold self', cycle.
  rewrite async_update_data_unfold in *.
  assert (∀ P0 P : EnergyStatsCoordinator → Prop,
            (∀ s, P0 s → P (set_calculated_keys []
                              (set_last_update (now env) (initialize env s)))) →
            (∀ s s', _store s' = _store s → _last_reset s' = _last_reset s →
                     _car_connected_was s' = _car_connected_was s →
                     P s → P s') →
            P0 self → P (accounting float env self).1) as Hacc.
  { intros P0 P Hstart Hframe HP0.
    apply (run_invariant_accounting float env P0 P); try done.
    - intros v s. by apply Hframe.
    - intros raw_vals result elapsed_h s _.
      destruct (update_energies_frame raw_vals result elapsed_h s)
        as (_ & ? & _ & ? & _ & _ & ?). by apply Hframe.
    - intros pv grid bp uf s.
      destruct (add_mix_energy_fields "battery_energy" pv grid bp None 0 uf s)
        as (_ & ? & _ & ? & _ & ?). by apply Hframe.
    - intros key pv grid bp f h uf s _.
      destruct (add_mix_energy_fields key pv grid bp f h uf s)
        as (_ & ? & _ & ? & _ & ?). by apply Hframe. }
  destruct (accounting float env self) as [self1 [result | e']] eqn:Hrun;
    [done |]. cbn [fst snd] in *.
  split.
  - apply (Hacc (λ s, _store s = _store self) (λ s, _store s = _store self));
      [| by intros s s' -> _ _ | done].
    intros s Hs. cbn. unfold initialize. by repeat case_match.
  - intros Hne.
    apply (Hacc (λ s, s = self)
             (λ s, _last_reset s = _last_reset self
                   ∧ _car_connected_was s = _car_connected_was self));
      [| by intros s s' _ -> -> | done].
    intros s ->. by rewrite initialize_nonempty.
Qed.

(** The site of scenario D with its battery sensor unavailable. *)
Lemma raising_run_does_not_save_scenario :
  let self' := cycle float_of_integer site_D env_unavailable in
  _store self' = _store site_D
  ∧ (_energy_sums site_D ≠ ∅ →
     _last_reset self' = _last_reset site_D
     ∧ _car_connected_was self' = _car_connected_was site_D).
Proof.
  apply (raising_run_does_not_save float_of_integer env_unavailable site_D
           (UpdateFailed "Entity sensor.battery_power is not ready!")).
  by_compute.
Defined.

(** ** The run as its parts *)

Lemma accounting_unfold float env self :
  accounting float env self
  = let self0 :=
      set_calculated_keys []
        (set_last_update (now env) (initialize env self)) in
    accounting_with
      (get_raw_values float env (sensors self0) SENSOR_KEYS ∅)
      (total_seconds (now env - _last_update (initialize env self))
       / Qc_of_Z 3600)
      self0.
Proof. reflexivity. Qed.

Lemma get_value_save_ok float b env entity_id :
  get_value float (set_save_ok b env) entity_id = get_value float env entity_id.
Proof. reflexivity. Qed.

Lemma get_raw_values_save_ok float b env sensors keys acc :
  get_raw_values float (set_save_ok b env) sensors keys acc
  = get_raw_values float env sensors keys acc.
Proof.
  revert acc. induction keys as [| key keys IH]; intros acc; [done |].
  cbn [get_raw_values]. destruct (sensors !! key) as [entity_id |]; [| done].
  rewrite get_value_save_ok. by destruct (get_value float env entity_id).
Qed.

Lemma accounting_save_ok float b env self :
  accounting float (set_save_ok b env) self = accounting float env self.
Proof.
  rewrite !accounting_unfold. cbv zeta.
  change (initialize (set_save_ok b env) self) with (initialize env self).
  cbn [now set_save_ok]. by rewrite get_raw_values_save_ok.
Qed.

(** ** The battery account in the cycle *)

Lemma battery_mix_empty_new configured created :
  battery_mix_empty (new_coordinator configured created).
Proof. split; [done | split; [done | by intros stored ?]]. Qed.

Lemma battery_mix_empty_run float env self :
  battery_mix_empty self → battery_mix_empty (cycle float self env).
Proof.
  apply (run_invariant float env battery_mix_empty battery_mix_empty).
  - intros s (Hpv & Hgrid & Hstore). unfold initialize.
    case_decide; [| done]. destruct (_store s) as [stored |] eqn:Hst.
    + destruct (Hstore stored eq_refl) as [? ?].
      split; [done | split; [done |]]. cbn. by intros ? [= <-].
    + split; [done | split; [done |]]. cbn. done.
  - by intros v s Hs.
  - intros raw_vals result elapsed_h s _ (Hpv & Hgrid & Hstore).
    destruct (update_energies_frame raw_vals result elapsed_h s)
      as (_ & Hst & _ & _ & Hp & Hg & _).
    unfold battery_mix_empty. by rewrite Hst, Hp, Hg.
  - intros pv grid bp uf s (Hpv & Hgrid & Hstore).
    destruct (add_mix_energy_fields "battery_energy" pv grid bp None 0 uf s)
      as (_ & Hst & _).
    unfold battery_mix_empty. rewrite Hst. split; [| split; [| done]].
    + destruct grid as [grid |]; [| done].
      destruct (add_mix_energy_sums "battery_energy" pv grid bp None 0 uf s)
        as (a & b & -> & _).
      rewrite Hpv, Qcmult_0_r, Qcmult_0_l, Qcplus_0_r. by_compute.
    + destruct grid as [grid |]; [| done].
      destruct (add_mix_energy_sums "battery_energy" pv grid bp None 0 uf s)
        as (a & b & _ & ->).
      rewrite Hgrid, Qcmult_0_r, Qcmult_0_l, Qcplus_0_r. by_compute.
  - intros key pv grid bp f h uf s Hkey (Hpv & Hgrid & Hstore).
    destruct (add_mix_energy_fields key pv grid bp f h uf s) as (_ & Hst & _).
    unfold battery_mix_empty. rewrite Hst. split; [| split; [| done]].
    + destruct grid as [grid |]; [| done].
      destruct (add_mix_energy_shape key pv grid bp f h uf s)
        as (a & b & _ & _ & ->). cbn. by rewrite get_insert_ne.
    + destruct grid as [grid |]; [| done].
      destruct (add_mix_energy_shape key pv grid bp f h uf s)
        as (a & b & _ & _ & ->). cbn. by rewrite get_insert_ne.
  - intros s (Hpv & Hgrid & Hstore). unfold daily_reset.
    destruct (daily_reset_due env s); [| done].
    split; [| split; [| done]]; cbn; unfold get at 1;
      by rewrite lookup_singleton_eq.
  - intros result s (Hpv & Hgrid & Hstore). unfold car_charging_reset.
    by case_match.
  - intros s (Hpv & Hgrid & Hstore). unfold save.
    destruct (save_ok env); [| done].
    split; [done | split; [done |]]. cbn. by intros stored [= <-].
Qed.

(** X14. From a new coordinator the battery account never receives
    anything: after any sequence of runs its pv sum and its grid sum are
    neither above nor below 0, and its mix ratio is 0. (Both calls for the
    battery account pass the elapsed hours in the place of the battery
    power, so that they apportion over an elapsed time of 0.) *)
Theorem battery_mix_stays_empty (float : string → option Qc)
    (configured : gmap string string) (created : Z) (envs : list Env) :
  let self := run float envs (new_coordinator configured created) in
  let pv_sum := get (_pv_sums self) "battery_energy" 0 in
  let grid_sum := get (_grid_sums self) "battery_energy" 0 in
  ¬ 0 < pv_sum ∧ ¬ pv_sum < 0
  ∧ ¬ 0 < grid_sum ∧ ¬ grid_sum < 0
  ∧ _mix_ratio "battery_energy" self = 0.
Proof.
  intros self pv_sum grid_sum.
  assert (battery_mix_empty self) as (Hpv & Hgrid & _).
  { unfold self. generalize (battery_mix_empty_new configured created).
    generalize (new_coordinator configured created).
    induction envs as [| env envs IH]; intros s Hs; [done |].
    simpl. by apply IH, battery_mix_empty_run. }
  unfold pv_sum, grid_sum, _mix_ratio. cbv zeta. rewrite Hpv, Hgrid.
  repeat split; by_compute.
Qed.

(** ** Saving and restarting *)

Lemma accounting_store float env self :
  _store (accounting float env self).1 = _store self.
Proof.
  apply (run_invariant_accounting float env
           (λ s, _store s = _store self) (λ s, _store s = _store self));
    try done.
  - intros s Hs. cbn. unfold initialize. by repeat case_match.
  - intros raw_vals result elapsed_h s _.
    by destruct (update_energies_frame raw_vals result elapsed_h s)
      as (_ & -> & _).
  - intros pv grid bp uf s.
    by destruct (add_mix_energy_fields "battery_energy" pv grid bp None 0 uf s)
      as (_ & -> & _).
  - intros key pv grid bp f h uf s _.
    by destruct (add_mix_energy_fields key pv grid bp f h uf s) as (_ & -> & _).
Qed.

(** X15. A save that fails changes nothing but the store: the run returns
    the same result or raises the same exception, and leaves the same
    totals, baselines, mix sums, timestamps and flag in memory, as the run
    whose save succeeds; after the failed save the store is what it was,
    and after a run that returns and saves, the store holds the snapshot of
    what is in memory. *)
Theorem failed_save_changes_only_the_store (float : string → option Qc)
    (env : Env) (self : EnergyStatsCoordinator) :
  let failed := _async_update_data float (set_save_ok false env) self in
  let saved := _async_update_data float (set_save_ok true env) self in
  failed.2 = saved.2
  ∧ set_store None failed.1 = set_store None saved.1
  ∧ _store failed.1 = _store self
  ∧ (returns saved = true → _store saved.1 = Some (snapshot saved.1)).
Proof.
  intros failed saved. unfold failed, saved, returns.
  rewrite !async_update_data_unfold, !accounting_save_ok.
  pose proof (accounting_store float env self) as Hstore.
  destruct (accounting float env self) as [self1 [result | e]];
    cbn [fst snd] in *; [| done].
  change (daily_reset (set_save_ok false env) self1)
    with (daily_reset env self1).
  change (daily_reset (set_save_ok true env) self1)
    with (daily_reset env self1).
  unfold save. cbn [save_ok set_save_ok].
  split; [done |]. split; [done |]. split; [| done].
  rewrite <-Hstore. unfold car_charging_reset, daily_reset.
  by repeat case_match.
Qed.

(** X16. Restart round trip: when the store holds the snapshot of what is
    in memory (as after every run that returns and saves), a new
    coordinator object for the same entry finds exactly those totals,
    baselines, mix sums, last-reset timestamp and flag at its first run,
    and, created at the time of the last update, its first run returns the
    same result and leaves the same coordinator behind as the run of the
    old object would have, the list of calculated keys included. *)
Theorem restart_round_trip (float : string → option Qc) (env : Env)
    (self : EnergyStatsCoordinator) (created : Z) :
  _store self = Some (snapshot self) →
  snapshot (initialize env (restart created self)) = snapshot self
  ∧ (created = _last_update self →
     _async_update_data float env (restart created self)
     = _async_update_data float env self).
Proof.
  intros Hstore.
  assert (initialize env (restart created self)
          = set_calculated_keys [] (set_last_update created self)
          ∧ initialize env self = self) as [Hinit Hself].
  { destruct self as [se st lu es lr eb pv gr cc ck].
    unfold snapshot in Hstore. cbn in Hstore. subst st.
    unfold initialize, restart, new_coordinator, set_store,
      set_calculated_keys, set_last_update.
    cbn [sensors _store _last_update _energy_sums _last_reset snap_energy_sums
         _energy_baselines _pv_sums _grid_sums _car_connected_was
         _calculated_keys snap_last_reset snap_energy_baselines snap_pv_sums
         snap_grid_sums snap_car_connected_was].
    rewrite decide_True by done. split; [done |].
    case_decide as Hempty; [by subst | done]. }
  split; [by rewrite Hinit |].
  intros ->. rewrite !async_update_data_unfold, !accounting_unfold. cbv zeta.
  rewrite Hinit, Hself.
  replace (set_calculated_keys []
             (set_last_update (now env)
                (set_calculated_keys []
                   (set_last_update (_last_update self) self))))
    with (set_calculated_keys [] (set_last_update (now env) self))
    by (by destruct self).
  done.
Qed.

(** The site with a car, after the run in which the car was plugged in,
    restarted at that time and run again an hour later. *)
Lemma restart_round_trip_after_plug_in :
  let self := cycle float_of_integer site_car (env_plug_in one_hour) in
  let env := env_plug_in (2 * one_hour) in
  _store self = Some (snapshot self)
  ∧ snapshot (initialize env (restart one_hour self)) = snapshot self
  ∧ (one_hour = _last_update self →
     _async_update_data float_of_integer env (restart one_hour self)
     = _async_update_data float_of_integer env self).
Proof.
  cbv zeta.
  assert (_store (cycle float_of_integer site_car (env_plug_in one_hour))
          = Some (snapshot (cycle float_of_integer site_car
                              (env_plug_in one_hour)))) as Hstore
    by by_compute.
  split; [exact Hstore |].
  exact (restart_round_trip float_of_integer (env_plug_in (2 * one_hour))
           (cycle float_of_integer site_car (env_plug_in one_hour)) one_hour
           Hstore).
Defined.

(** ** When a run returns *)

Lemma battery_mix_cases raw_vals result elapsed_h self :
  let zero_division :=
    ∃ bp, raw_vals !! "battery_power" = Some bp ∧ bp ≤ 0
          ∧ get result "pv_power" 0 + get result "grid_power" 0 = 0 in
  (zero_division
   ∧ battery_mix raw_vals result elapsed_h self = (self, Raise ZeroDivisionError))
  ∨ (¬ zero_division
     ∧ ∃ self' result',
         battery_mix raw_vals result elapsed_h self = (self', Return result')
         ∧ _energy_sums self' = _energy_sums self
         ∧ ∀ key, key ≠ "battery_energy_mix" → result' !! key = result !! key).
Proof.
  intros zero_division. unfold zero_division, battery_mix, battery_usage_factor,
    truediv.
  destruct (raw_vals !! "battery_power") as [bp |] eqn:Hbp.
  - destruct (decide (0 < bp)) as [Hpos | Hpos].
    + right. split.
      { intros (bp' & [= <-] & Hle & _). by apply Qcle_not_lt in Hle. }
      unfold bind, modify, get_self, ret. eexists _, _. split; [done |].
      split.
      * cbn [_energy_sums set_calculated_keys].
        by destruct (add_mix_energy_fields "battery_energy"
                       (Some (- get result "battery_power" 0
                              * get result "battery_energy_mix" 0))
                       (Some (- get result "battery_power" 0
                              * (1 - get result "battery_energy_mix" 0)))
                       (Some elapsed_h) None 0 None self)
          as (_ & _ & _ & _ & -> & _).
      * intros key Hkey. by rewrite lookup_insert_ne.
    + apply Qcnot_lt_le in Hpos.
      destruct (decide (get result "pv_power" 0 + get result "grid_power" 0 = 0))
        as [Hzero | Hnonzero].
      * left. split; [by exists bp |]. done.
      * right. split; [by intros (bp' & _ & _ & ?) |].
        unfold bind, modify, get_self, ret, raise. eexists _, _.
        split; [done |]. split.
        -- cbn [_energy_sums set_calculated_keys].
           by destruct (add_mix_energy_fields "battery_energy"
                          (Some (get result "pv_power" 0))
                          (Some (get result "grid_power" 0))
                          (Some elapsed_h) None 0
                          (Some (- get result "battery_power" 0
                                 / (get result "pv_power" 0
                                    + get result "grid_power" 0))) self)
             as (_ & _ & _ & _ & -> & _).
        -- intros key Hkey. by rewrite lookup_insert_ne.
  - right. split; [by intros (bp & ? & _) |]. unfold ret. by eexists _, _.
Qed.

Lemma home_mix_cases result elapsed_h self :
  let denominator :=
    get result "home_power" 0 + get result "car_charging_power" 0 in
  (denominator = 0
   ∧ home_mix result elapsed_h self = (self, Raise ZeroDivisionError))
  ∨ (denominator ≠ 0
     ∧ ∃ self' result',
         home_mix result elapsed_h self = (self', Return result')
         ∧ _energy_sums self' = _energy_sums self
         ∧ ∀ key, key ≠ "home_energy_mix_daily" →
             result' !! key = result !! key).
Proof.
  intros denominator. unfold home_mix, home_usage_factor, truediv.
  fold denominator. destruct (decide (denominator = 0)) as [Hzero | Hnonzero].
  - by left.
  - right. split; [done |].
    unfold bind, modify, get_self, ret, raise. eexists _, _.
    split; [done |]. split.
    + cbn [_energy_sums set_calculated_keys].
      by destruct (add_mix_energy_fields "home_energy_daily"
                     (Some (get result "pv_power" 0))
                     (Some (get result "grid_power" 0))
                     (Some (get result "battery_power" 0))
                     (Some (get result "battery_energy_mix" 0)) elapsed_h
                     (Some (get result "home_power" 0 / denominator)) self)
        as (_ & _ & _ & _ & -> & _).
    + intros key Hkey. by rewrite lookup_insert_ne.
Qed.

Lemma car_mix_returns raw_vals result elapsed_h self :
  get result "home_power" 0 + get result "car_charging_power" 0 ≠ 0 →
  ∃ self' result',
    car_mix raw_vals result elapsed_h self = (self', Return result')
    ∧ _energy_sums self' = _energy_sums self
    ∧ ∀ key, key ≠ "car_charging_energy_mix" → result' !! key = result !! key.
Proof.
  intros Hden. unfold car_mix, car_usage_factor, truediv.
  destruct (raw_vals !! "car_charging_power").
  - rewrite decide_False by done.
    unfold bind, modify, get_self, ret, raise. eexists _, _.
    split; [done |]. split.
    + cbn [_energy_sums set_calculated_keys].
      by destruct (add_mix_energy_fields "car_charging_energy"
                     (Some (get result "pv_power" 0))
                     (Some (get result "grid_power" 0))
                     (Some (get result "battery_power" 0))
                     (Some (get result "battery_energy_mix" 0)) elapsed_h
                     (Some (get result "car_charging_power" 0
                            / (get result "home_power" 0
                               + get result "car_charging_power" 0))) self)
        as (_ & _ & _ & _ & -> & _).
    + intros key Hkey. by rewrite lookup_insert_ne.
  - unfold ret. by eexists _, _.
Qed.

(** [accounting] runs [energy_mixes] on the totals and the momentary
    values. *)
Lemma accounting_with_energy_mixes read elapsed_h :
  accounting_with read elapsed_h
  = (raw_vals <- (λ self, (self, read)) ;;
     modify (update_energies raw_vals (momentary_values raw_vals) elapsed_h) ;;
     self <- get_self ;;
     energy_mixes raw_vals (_energy_sums self ∪ momentary_values raw_vals)
       elapsed_h).
Proof. reflexivity. Qed.

Lemma energy_mixes_cases raw_vals result elapsed_h self :
  let defined :=
    get result "home_power" 0 + get result "car_charging_power" 0 ≠ 0
    ∧ ∀ bp, raw_vals !! "battery_power" = Some bp → ¬ 0 < bp →
        get result "pv_power" 0 + get result "grid_power" 0 ≠ 0 in
  (¬ defined
   ∧ ∃ self',
       energy_mixes raw_vals result elapsed_h self
       = (self', Raise ZeroDivisionError))
  ∨ (defined
     ∧ ∃ self' result',
         energy_mixes raw_vals result elapsed_h self = (self', Return result')).
Proof.
  intros defined. unfold defined, energy_mixes, bind.
  destruct (battery_mix_cases raw_vals result elapsed_h self)
    as [[(bp & Hbp & Hle & Hzero) ->] | [Hok (self2 & result2 & -> & _ & Hres2)]].
  { left. split; [| by eexists]. intros [_ Hden].
    destruct (Hden bp); [done | by apply Qcle_not_lt | done]. }
  assert (∀ key, key ≠ "battery_energy_mix" →
                 get result2 key 0 = get result key 0) as Hget2.
  { intros key Hkey. unfold get. by rewrite Hres2. }
  destruct (home_mix_cases result2 elapsed_h self2)
    as [[Hzero ->] | [Hden (self3 & result3 & -> & _ & Hres3)]].
  { rewrite !Hget2 in Hzero by done. left. split; [| by eexists].
    by intros [? _]. }
  rewrite !Hget2 in Hden by done.
  destruct (car_mix_returns raw_vals result3 elapsed_h self3)
    as (self4 & result4 & -> & _).
  { unfold get. rewrite !Hres3 by done. fold (get result2 "home_power" 0).
    fold (get result2 "car_charging_power" 0). by rewrite !Hget2. }
  right. split; [| by eexists _, _]. split; [done |].
  intros bp Hbp Hle Hzero. apply Hok. exists bp.
  split; [done |]. split; [by apply Qcnot_lt_le | done].
Qed.

(** X17. [# Energy Mixes] raises exactly when a usage factor divides by
    zero: it returns if and only if the home power plus the car charging
    power of [result] is not 0 and, when there is a battery power reading
    that is not above 0, the pv power plus the grid power of [result] is
    not 0 (a missing entry counts as 0); what it raises is
    [ZeroDivisionError]. *)
Theorem energy_mixes_return_iff (raw_vals result : gmap string Qc)
    (elapsed_h : Qc) (self : EnergyStatsCoordinator) :
  (returns (energy_mixes raw_vals result elapsed_h self) = true
   ↔ get result "home_power" 0 + get result "car_charging_power" 0 ≠ 0
     ∧ ∀ bp, raw_vals !! "battery_power" = Some bp → ¬ 0 < bp →
         get result "pv_power" 0 + get result "grid_power" 0 ≠ 0)
  ∧ ∀ e, (energy_mixes raw_vals result elapsed_h self).2 = Raise e →
      e = ZeroDivisionError.
Proof.
  unfold returns.
  destruct (energy_mixes_cases raw_vals result elapsed_h self)
    as [[Hundefined [self' ->]] | [Hdefined (self' & result' & ->)]];
    cbn [snd].
  - split; [by split | by intros e [= <-]].
  - split; [by split | by intros e ?].
Qed.

(** ** The charging session across runs *)

(** [_update_energy] never replaces a baseline that is stored. *)
Lemma update_energy_baseline_kept key key' e p h self b :
  _energy_baselines self !! key' = Some b →
  _energy_baselines (_update_energy key e p h self) !! key' = Some b.
Proof.
  intros Hb. unfold _update_energy.
  destruct e as [energy |].
  - destruct (_energy_baselines self !! key) as [baseline |] eqn:Hkey.
    + done.
    + cbn. rewrite lookup_insert_ne; [done |]. intros ->. congruence.
  - destruct p as [power |]; [| done]. by case_decide.
Qed.

Lemma add_mix_energy_baselines key pv grid bp f h uf self :
  _energy_baselines (_add_mix_energy key pv grid bp f h uf self)
  = _energy_baselines self
  ∧ _car_connected_was (_add_mix_energy key pv grid bp f h uf self)
    = _car_connected_was self.
Proof.
  destruct grid as [grid |]; [| done].
  by destruct (add_mix_energy_shape key pv grid bp f h uf self)
    as (a & b & _ & _ & ->).
Qed.

(** X18. While the car stays connected its session keeps its baseline: a
    run of a coordinator with a total in memory, whose last-connected flag
    is set and which has a baseline for the charging session, leaves that
    baseline as it is, whether the run returns or raises and whether or not
    the daily reset fires in it. *)
Theorem session_baseline_kept_while_connected (float : string → option Qc)
    (env : Env) (self : EnergyStatsCoordinator) (baseline : Qc) :
  _energy_sums self ≠ ∅ →
  _car_connected_was self = true →
  _energy_baselines self !! "car_charging_energy" = Some baseline →
  _energy_baselines (cycle float self env) !! "car_charging_energy"
  = Some baseline.
Proof.
  intros Hsums Hwas Hbase.
  set (P := λ s : EnergyStatsCoordinator,
         _car_connected_was s = true
         ∧ _energy_baselines s !! "car_charging_energy" = Some baseline).
  assert (P (accounting float env self).1) as HP.
  { apply (run_invariant_accounting float env
             (λ s, _energy_sums s ≠ ∅ ∧ P s) P); [| | | | | done].
    - intros s [Hne Hs]. by rewrite initialize_nonempty.
    - by intros v s Hs.
    - intros raw_vals result elapsed_h s _ [Hw Hb]. split.
      + by destruct (update_energies_frame raw_vals result elapsed_h s)
          as (_ & _ & _ & _ & _ & _ & ->).
      + unfold update_energies.
        repeat apply update_energy_baseline_kept.
        by destruct (raw_vals !! "battery_energy").
    - intros pv grid bp uf s [Hw Hb]. unfold P.
      by destruct (add_mix_energy_baselines "battery_energy" pv grid bp None 0
                     uf s) as [-> ->].
    - intros key pv grid bp f h uf s _ [Hw Hb]. unfold P.
      by destruct (add_mix_energy_baselines key pv grid bp f h uf s)
        as [-> ->]. }
  unfold cycle. rewrite async_update_data_unfold.
  destruct (accounting float env self) as [self1 [result | e]];
    cbn [fst] in *; [| by destruct HP].
  destruct HP as [Hw Hb].
  assert (_car_connected_was (daily_reset env self1) = true
          ∧ _energy_baselines (daily_reset env self1) !! "car_charging_energy"
            = Some baseline) as [Hw' Hb'].
  { unfold daily_reset, reset_daily_values. case_match; [| done].
    cbn. unfold get. rewrite Hb. by rewrite lookup_singleton. }
  unfold save, car_charging_reset. rewrite Hw'. by case_match.
Qed.

(** The site with a car, plugged in at the first run and still connected
    at a second run after the reset instant. *)
Lemma session_baseline_kept_over_reset :
  let self := cycle float_of_integer site_car (env_plug_in one_hour) in
  _energy_sums self ≠ ∅
  ∧ _car_connected_was self = true
  ∧ _energy_baselines self !! "car_charging_energy" = Some (Qc_of_Z 750)
  ∧ _energy_baselines (cycle float_of_integer self (env_plug_in (21 * one_hour)))
      !! "car_charging_energy"
    = Some (Qc_of_Z 750).
Proof.
  cbv zeta.
  assert (_energy_sums (cycle float_of_integer site_car (env_plug_in one_hour))
          ≠ ∅) as Hsums by by_compute.
  assert (_car_connected_was
            (cycle float_of_integer site_car (env_plug_in one_hour)) = true)
    as Hwas by by_compute.
  assert (_energy_baselines
            (cycle float_of_integer site_car (env_plug_in one_hour))
            !! "car_charging_energy" = Some (Qc_of_Z 750))
    as Hbase by by_compute.
  split; [exact Hsums |]. split; [exact Hwas |]. split; [exact Hbase |].
  exact (session_baseline_kept_while_connected float_of_integer
           (env_plug_in (21 * one_hour))
           (cycle float_of_integer site_car (env_plug_in one_hour))
           (Qc_of_Z 750) Hsums Hwas Hbase).
Defined.

(** ** Integrated totals *)

Lemma three_decimals_0 : three_decimals 0.
Proof. exists 0%Z. by_compute. Qed.

Lemma round_half_even_Z (n : Z) : round_half_even (Qc_of_Z n) = n.
Proof.
  unfold round_half_even.
  assert (Qfloor (Qc_of_Z n) = n) as ->.
  { transitivity (Qfloor (inject_Z n)); [| apply Qfloor_Z].
    apply Qfloor_comp. unfold Qc_of_Z, Q2Qc. cbn [this].
    first [apply Qred_correct | reflexivity]. }
  replace (Qc_of_Z n - Qc_of_Z n) with 0 by ring.
  rewrite decide_True; [done | by_compute].
Qed.

Lemma round_three_decimals (x : Qc) : three_decimals (round x 3).
Proof. by eexists. Qed.

Lemma round_of_three_decimals (x : Qc) : three_decimals x → round x 3 = x.
Proof.
  intros [n ->]. unfold round. change (10 ^ Z.of_nat 3)%Z with 1000%Z.
  assert (Qc_of_Z 1000 ≠ 0) as Hs.
  { rewrite <-Z2Qc_inj_0. intros H. by apply Z2Qc_inj in H. }
  replace (Qc_of_Z n / Qc_of_Z 1000 * Qc_of_Z 1000) with (Qc_of_Z n)
    by (by field).
  by rewrite round_half_even_Z.
Qed.

Lemma update_energy_sums_ne key key' e p h self :
  key' ≠ key →
  _energy_sums (_update_energy key e p h self) !! key'
  = _energy_sums self !! key'.
Proof.
  intros Hne. unfold _update_energy.
  destruct e as [energy |].
  - destruct (_energy_baselines self !! key); cbn; by rewrite lookup_insert_ne.
  - destruct p as [power |]; [| done]. case_decide; [| done].
    cbn. by rewrite lookup_insert_ne.
Qed.

(** An update that has no energy reading for [key'] keeps a total of [key']
    at three decimal places. *)
Lemma update_energy_three_decimals key key' e p h self :
  (key = key' → e = None) →
  three_decimals (get (_energy_sums self) key' 0) →
  three_decimals (get (_energy_sums (_update_energy key e p h self)) key' 0).
Proof.
  intros He Hd. destruct (decide (key = key')) as [<- | Hne].
  - rewrite (He eq_refl). unfold _update_energy.
    destruct p as [power |]; [| done]. case_decide; [| done].
    cbn. rewrite get_insert_eq. apply round_three_decimals.
  - unfold get. by rewrite update_energy_sums_ne.
Qed.

Lemma integrated_cycle float env sensor key self :
  sensor ∈ SENSOR_KEYS →
  key ≠ "battery_energy" → key ≠ "car_charging_energy" →
  (∀ raw_vals result elapsed_h s,
     raw_vals !! sensor = None →
     three_decimals (get (_energy_sums s) key 0) →
     three_decimals
       (get (_energy_sums (update_energies raw_vals result elapsed_h s)) key 0)) →
  integrated sensor key self → integrated sensor key (cycle float self env).
Proof.
  intros Hsensor Hbattery Hcar Henergies.
  apply (run_invariant float env (integrated sensor key)
           (integrated sensor key)).
  - intros s (Hs & Hd & Hstore). unfold initialize.
    case_decide; [| done]. destruct (_store s) as [stored |] eqn:Hst.
    + split; [done |]. split; cbn; [by apply Hstore |].
      intros ? [= <-]. by apply Hstore.
    + split; [done |]. split; cbn; [apply three_decimals_0 | done].
  - by intros v s Hs.
  - intros raw_vals result elapsed_h s Hraw (Hs & Hd & Hstore).
    destruct (update_energies_frame raw_vals result elapsed_h s)
      as (Hsens & Hst & _).
    unfold integrated. rewrite Hsens, Hst. split; [done |]. split; [| done].
    apply Henergies; [| done].
    destruct (raw_vals !! sensor) as [v |] eqn:Hv; [| done].
    destruct (get_raw_values_lookup _ _ _ _ _ _ _ _ Hraw Hv)
      as [Hacc | (entity_id & Hent & _)]; [done | congruence].
  - intros pv grid bp uf s (Hs & Hd & Hstore).
    destruct (add_mix_energy_fields "battery_energy" pv grid bp None 0 uf s)
      as (Hsens & Hst & _ & _ & Hsums & _).
    unfold integrated. by rewrite Hsens, Hst, Hsums.
  - intros k pv grid bp f h uf s _ (Hs & Hd & Hstore).
    destruct (add_mix_energy_fields k pv grid bp f h uf s)
      as (Hsens & Hst & _ & _ & Hsums & _).
    unfold integrated. by rewrite Hsens, Hst, Hsums.
  - intros s (Hs & Hd & Hstore). unfold daily_reset, reset_daily_values.
    case_match; [| done]. split; [done |]. split; cbn; [| done].
    unfold get. rewrite lookup_singleton_ne by done. apply three_decimals_0.
  - intros result s (Hs & Hd & Hstore). unfold car_charging_reset.
    cbv zeta. case_match; [| done].
    split; [done |]. split; [| done].
    unfold set_car_connected_was, set_energy_baselines, set_energy_sums.
    cbn [_energy_sums]. by rewrite get_insert_ne.
  - intros s (Hs & Hd & Hstore). unfold save. case_match; [| done].
    split; [done |]. split; cbn; [done |]. by intros ? [= <-].
Qed.

(** Without a cumulative sensor for the grid import, its total has at most
    three decimal places in every state reached from a new coordinator. *)
Lemma grid_in_integrated float configured created envs :
  configured !! "grid_in_energy" = None →
  integrated "grid_in_energy" "grid_in_energy_daily"
    (run float envs (new_coordinator configured created)).
Proof.
  intros Hnone.
  assert (integrated "grid_in_energy" "grid_in_energy_daily"
            (new_coordinator configured created)) as Hnew.
  { split; [done |]. split; [apply three_decimals_0 | done]. }
  revert Hnew. generalize (new_coordinator configured created).
  unfold run. induction envs as [| env envs IH]; intros self Hself; [done |].
  cbn [foldl]. apply IH.
  apply integrated_cycle; [by_compute | done | done | | done].
  intros raw_vals result elapsed_h s Hraw Hd. unfold update_energies.
  repeat apply update_energy_three_decimals;
    try (intros Heq; first [exact Hraw | discriminate Heq]).
  destruct (raw_vals !! "battery_energy"); [| done].
  cbn [_energy_sums set_energy_sums]. by rewrite get_insert_ne.
Qed.

(** C7. An account updated without an energy reading: a positive power
    over a positive elapsed time makes the total the previous total plus
    power × elapsed hours rounded to 3 decimal places, that is a number
    with at most 3 decimal places within 0.0005 of that sum; a power that
    is zero or negative leaves the coordinator as it is. With 1000 W over
    one hour and no cumulative sensor configured, [grid_in_energy_daily]
    grows by exactly 1000 Wh, in every state reached from a new
    coordinator. *)
Theorem update_energy_power_integration :
  (∀ key power elapsed_h self,
     0 < elapsed_h → 0 < power →
     ∃ total,
       _energy_sums (_update_energy key None (Some power) elapsed_h self) !! key
       = Some total
       ∧ three_decimals total
       ∧ get (_energy_sums self) key 0 + power * elapsed_h
         - 1 / (2 * Qc_of_Z 1000) ≤ total
       ∧ total ≤ get (_energy_sums self) key 0 + power * elapsed_h
                 + 1 / (2 * Qc_of_Z 1000))
  ∧ (∀ key power elapsed_h self,
       power ≤ 0 →
       _update_energy key None (Some power) elapsed_h self = self)
  ∧ (∀ float configured created envs,
       configured !! "grid_in_energy" = None →
       let self := run float envs (new_coordinator configured created) in
       _energy_sums
         (_update_energy "grid_in_energy_daily" None (Some (Qc_of_Z 1000)) 1 self)
         !! "grid_in_energy_daily"
       = Some (get (_energy_sums self) "grid_in_energy_daily" 0 + Qc_of_Z 1000)).
Proof.
  assert (∀ key power elapsed_h self,
            0 < elapsed_h → 0 < power →
            _energy_sums (_update_energy key None (Some power) elapsed_h self) !! key
            = Some (round (get (_energy_sums self) key 0 + power * elapsed_h) 3))
    as Hpos.
  { intros key power elapsed_h self Hh Hp. unfold _update_energy.
    rewrite decide_True by done. simpl. by rewrite lookup_insert_eq. }
  split; [| split].
  - intros key power elapsed_h self Hh Hp.
    exists (round (get (_energy_sums self) key 0 + power * elapsed_h) 3).
    split; [by apply Hpos |]. split; [apply round_three_decimals |].
    by destruct (round_near (get (_energy_sums self) key 0 + power * elapsed_h)
                   3) as (_ & Hlo & Hhi).
  - intros key power elapsed_h self Hp. unfold _update_energy.
    rewrite decide_False; [done |]. intros [_ Hlt].
    by apply Qcle_not_lt in Hp.
  - intros float configured created envs Hnone self.
    destruct (grid_in_integrated float configured created envs Hnone)
      as (_ & Hd & _).
    fold self in Hd. rewrite Hpos by by_compute. f_equal.
    rewrite Qcmult_1_r, round_add_Z. by rewrite round_of_three_decimals.
Qed.
